(** * flexai-backend: the chat gateway of [index.js]

    A shallow embedding of the session store, the four chat routes and the
    hourly cleanup of [index.js], with the properties of its specification.

    Conventions of the embedding:
    - JavaScript strings are strings of UTF-8 bytes ([string]); the built-ins the
      handlers call ([toString], [parseInt], [toLowerCase], [includes]) are
      modelled on that alphabet in module [Js];
    - [chatSessions] is a finite map from identifiers to conversations;
    - the system clock is external: a handler receives the readings it will
      obtain, in order, as a function [Clock] from the rank of the reading to
      the reading in milliseconds;
    - the generative-AI provider is external: a handler receives the outcome
      the provider will give to the call it makes ([Provider]);
    - a handler returns what it wrote to the response and the new store. *)

From Stdlib Require Import ZArith Ascii String List Bool Lia.
From stdpp Require Import gmap strings list fin_maps.

Local Open Scope Z_scope.

(** ** JavaScript built-ins used by the handlers *)

Module Js.

(** Truthiness of a string: only the empty string is falsy. *)
Definition truthy (s : string) : bool :=
  match s with
  | EmptyString => false
  | String _ _ => true
  end.

(** Truthiness of a field that may be absent ([undefined] is falsy). *)
Definition truthyField (v : option string) : bool :=
  match v with
  | None => false
  | Some s => truthy s
  end.

(** [s.startsWith(pat)]. *)
Fixpoint startsWith (s pat : string) : bool :=
  match pat, s with
  | EmptyString, _ => true
  | String _ _, EmptyString => false
  | String p pat', String c s' => Ascii.eqb c p && startsWith s' pat'
  end.

(** [String.prototype.toLowerCase], on the UTF-8 bytes of the string. Every
    character whose lowercase form holds an ASCII letter is mapped as
    JavaScript maps it: the letters [A]-[Z], the Kelvin sign U+212A (bytes
    E2 84 AA, lowercase [k]) and the capital I with dot above U+0130 (bytes
    C4 B0, lowercase [i] followed by the combining dot U+0307, bytes CC 87).
    Any other character outside ASCII is kept; JavaScript may replace it by
    another character outside ASCII, which adds or removes no ASCII byte.
    [skip] counts the bytes still to pass of a character already mapped. *)
Definition lowerChar (c : ascii) : ascii :=
  let n := N_of_ascii c in
  if ((65 <=? n) && (n <=? 90))%N then ascii_of_N (n + 32) else c.

Definition kelvinSign : string :=
  String "226"%char (String "132"%char (String "170"%char EmptyString)).

Definition capitalDottedI : string :=
  String "196"%char (String "176"%char EmptyString).

Definition smallDottedI : string :=
  String "i"%char (String "204"%char (String "135"%char EmptyString)).

Fixpoint lowerFrom (skip : nat) (s : string) : string :=
  match s with
  | EmptyString => EmptyString
  | String c rest =>
      match skip with
      | S k => lowerFrom k rest
      | O =>
          if startsWith s kelvinSign then String "k"%char (lowerFrom 2 rest)
          else if startsWith s capitalDottedI
          then smallDottedI +:+ lowerFrom 1 rest
          else String (lowerChar c) (lowerFrom 0 rest)
      end
  end.

Definition toLowerCase (s : string) : string := lowerFrom 0 s.

(** [s.includes(pat)]: [pat] occurs somewhere in [s]. *)
Fixpoint includes (s pat : string) : bool :=
  startsWith s pat ||
  match s with
  | EmptyString => false
  | String _ s' => includes s' pat
  end.

(** [Number.prototype.toString] on integers: decimal digits, most
    significant first, with a leading minus sign for negative numbers. *)
Definition digitChar (d : Z) : ascii := ascii_of_N (48 + Z.to_N d).

Fixpoint digitsOf (fuel : nat) (n : Z) (acc : string) : string :=
  match fuel with
  | O => acc
  | S fuel' =>
      let acc' := String (digitChar (n mod 10)) acc in
      if n <? 10 then acc' else digitsOf fuel' (n / 10) acc'
  end.

Definition digitsFuel (n : Z) : nat := S (Z.to_nat (Z.log2 n)).

Definition toString (n : Z) : string :=
  if n <? 0
  then String "-"%char (digitsOf (digitsFuel (- n)) (- n) EmptyString)
  else digitsOf (digitsFuel n) n EmptyString.

(** [parseInt(s)] with no radix argument: leading white space is skipped,
    then an optional sign, then an optional [0x] prefix selecting radix 16,
    then the longest run of digits of the radix. [None] stands for [NaN].
    Readings of the clock are below 2^53, so the result is exact. *)
Definition isWhiteSpace (c : ascii) : bool :=
  let n := N_of_ascii c in
  ((n =? 32) || (9 <=? n) && (n <=? 13))%N.

Fixpoint trimStart (s : string) : string :=
  match s with
  | EmptyString => EmptyString
  | String c rest => if isWhiteSpace c then trimStart rest else s
  end.

Definition digitValue (radix : Z) (c : ascii) : option Z :=
  let n := Z.of_N (N_of_ascii c) in
  let v :=
    if (48 <=? n) && (n <=? 57) then n - 48
    else if (97 <=? n) && (n <=? 122) then n - 97 + 10
    else if (65 <=? n) && (n <=? 90) then n - 65 + 10
    else radix in
  if v <? radix then Some v else None.

Fixpoint parseDigits (radix : Z) (s : string) (acc : option Z) : option Z :=
  match s with
  | EmptyString => acc
  | String c rest =>
      match digitValue radix c with
      | Some d =>
          parseDigits radix rest
            (Some (radix * match acc with Some a => a | None => 0 end + d))
      | None => acc
      end
  end.

Definition stripSign (s : string) : Z * string :=
  match s with
  | String c rest =>
      if Ascii.eqb c "-" then (-1, rest)
      else if Ascii.eqb c "+" then (1, rest)
      else (1, s)
  | EmptyString => (1, s)
  end.

Definition stripHexPrefix (s : string) : Z * string :=
  match s with
  | String c1 (String c2 rest) =>
      if Ascii.eqb c1 "0" && (Ascii.eqb c2 "x" || Ascii.eqb c2 "X")
      then (16, rest)
      else (10, s)
  | _ => (10, s)
  end.

Definition parseInt (s : string) : option Z :=
  let '(sign, s2) := stripSign (trimStart s) in
  let '(radix, s3) := stripHexPrefix s2 in
  match parseDigits radix s3 None with
  | Some v => Some (sign * v)
  | None => None
  end.

End Js.

(** ** The conversation object of the provider's client library *)

(** Modelled from the spec: the [ChatSession] object that [model.startChat]
    returns, with its methods [sendMessage], [sendMessageStream] and
    [getHistory], belongs to the provider's client library and is not part of
    [index.js]. It is modelled from the specification's Conversation Proxy
    (section 4.2): a conversation is its ordered, append-only list of turns. *)
Record Turn := { role : string; text : string }.

Record ChatSession := { chatHistory : list Turn }.

Definition userTurn (t : string) : Turn := {| role := "user"; text := t |}.
Definition modelTurn (t : string) : Turn := {| role := "model"; text := t |}.

Definition appendTurn (t : Turn) (chat : ChatSession) : ChatSession :=
  {| chatHistory := chatHistory chat ++ [t] |}.

(** [model.startChat({history: []})]. *)
Definition startChat : ChatSession := {| chatHistory := [] |}.

(** Outcome of an [await]: the value, or an exception. *)
Inductive Result (A : Type) : Type :=
| Returned (a : A)
| Thrown.
Arguments Returned {A} a.
Arguments Thrown {A}.

(** What the external model answers to a call. *)
Inductive SendOutcome :=
| Replied (reply : string)
| SendFailed.

Inductive StreamOutcome :=
| Completed (chunks : list string)    (* the stream ends normally *)
| Interrupted (chunks : list string)  (* the stream breaks after these chunks *)
| Rejected.                           (* the call fails, no stream is obtained *)

Record Provider := { onSend : SendOutcome; onStream : StreamOutcome }.

(** Modelled from the spec: [sendSync] "appends a user turn, invokes the
    external model synchronously with full history, appends the assistant
    reply, returns it", and fails when the external call fails. *)
Definition sendMessage (chat : ChatSession) (message : string)
    (o : SendOutcome) : ChatSession * Result string :=
  let chat1 := appendTurn (userTurn message) chat in
  match o with
  | Replied reply => (appendTurn (modelTurn reply) chat1, Returned reply)
  | SendFailed => (chat1, Thrown)
  end.

(** The fragments a stream yields, and how it ends. *)
Inductive StreamEnd := EndOfStream | StreamError.

Record ChunkStream := { chunks : list string; ending : StreamEnd }.

(** Modelled from the spec: [sendStream] "appends a user turn, requests a
    token/chunk stream from the external model, yields chunks as they arrive,
    and on stream completion appends the concatenated full text as the
    assistant turn"; an interrupted stream appends nothing more and ends in
    an error. *)
Definition sendMessageStream (chat : ChatSession) (message : string)
    (o : StreamOutcome) : ChatSession * Result ChunkStream :=
  let chat1 := appendTurn (userTurn message) chat in
  match o with
  | Completed cs =>
      (appendTurn (modelTurn (String.concat EmptyString cs)) chat1,
       Returned {| chunks := cs; ending := EndOfStream |})
  | Interrupted cs =>
      (chat1, Returned {| chunks := cs; ending := StreamError |})
  | Rejected => (chat1, Thrown)
  end.

(** Modelled from the spec: [history()] "returns the accumulated turns". *)
Definition getHistory (chat : ChatSession) : list Turn := chatHistory chat.

(** ** Requests, responses and the store *)

(** The k-th reading of the system clock ([Date.now()], [new Date()]) made
    while one request is handled, in milliseconds. [toISOString] is a
    rendering of the reading; the reading itself is kept. *)
Definition Clock := nat -> Z.

(** [chatSessions]: the process-wide [Map] from identifier to conversation. *)
Abbreviation Store := (gmap string ChatSession).

(** The [{id, text, sender, timestamp}] object of every payload. *)
Record Message := {
  msgId : Z;
  msgText : string;
  sender : string;
  timestamp : Z
}.

Inductive Body :=
| BStart (sessionId : string) (message : Message)
| BMessage (message : Message) (isOffline : option bool)
| BHistory (history : list Message)
| BInfo (message : string)
| BError (error : string).

(** One [data: {...}] frame written to an event stream. *)
Inductive Frame :=
| ChunkFrame (text : string) (sessionId : string)
| CompleteFrame (fullText : string) (sessionId : string)
| ErrorFrame (error : string) (sessionId : string).

(** What a handler sent: a JSON payload with its status, or an event stream
    (status 200, [text/event-stream]) with the frames written before
    [res.end()]. *)
Inductive Response :=
| Json (status : Z) (body : Body)
| EventStream (frames : list Frame).

(** The body of [POST /api/chat/message]: [{sessionId, message, stream}],
    each field possibly absent, with the types the client gives them: the
    identifier and the message are strings, the flag is a boolean. *)
Record MessageRequest := {
  reqSessionId : option string;
  reqMessage : option string;
  reqStream : option bool
}.

(** ** POST /api/chat/start *)

(** The clock is read three times: for the identifier, for the id of the
    welcome message and for its timestamp. Nothing in the [try] block can
    throw here, so the 500 branch is not reached. *)

Definition welcomeMessage : string :=
  "Hi! I'm your AI fitness assistant powered by Google Gemini. Ask me anything about workouts, nutrition, or fitness! 💪".

Definition postStart (clock : Clock) (chatSessions : Store)
    : Response * Store :=
  let sessionId := Js.toString (clock 0%nat) in
  let chat := startChat in
  (Json 200
     (BStart sessionId
        {| msgId := clock 1%nat; msgText := welcomeMessage; sender := "bot";
           timestamp := clock 2%nat |}),
   <[sessionId := chat]> chatSessions).

(** ** POST /api/chat/message *)

(** The streaming loop: every chunk is added to [fullResponse] and written
    out as a [chunk] frame. *)
Fixpoint relayChunks (sessionId : string) (cs : list string)
    (fullResponse : string) (written : list Frame) : string * list Frame :=
  match cs with
  | [] => (fullResponse, written)
  | chunkText :: rest =>
      relayChunks sessionId rest (fullResponse +:+ chunkText)
        (written ++ [ChunkFrame chunkText sessionId])
  end.

(** The inner [try]/[catch], entered after [res.writeHead]. *)
Definition streamBranch (sessionId message : string) (chat : ChatSession)
    (o : StreamOutcome) : list Frame * ChatSession :=
  let streamError := ErrorFrame "Streaming failed" sessionId in
  match sendMessageStream chat message o with
  | (chat', Returned result) =>
      let '(fullResponse, written) :=
        relayChunks sessionId (chunks result) EmptyString [] in
      match ending result with
      | EndOfStream =>
          (written ++ [CompleteFrame fullResponse sessionId], chat')
      | StreamError => (written ++ [streamError], chat')
      end
  | (chat', Thrown) => ([streamError], chat')
  end.

Module fallbackResponses.
Definition workout : string :=
  "Quick workout tip: Try 10 push-ups, 15 squats, 30-sec plank. Repeat 3x! 💪".
Definition diet : string :=
  "Quick nutrition tip: Fill half your plate with veggies, quarter with protein, quarter with complex carbs! 🥗".
Definition motivation : string :=
  "You're already winning by asking! 🏆 Every small step counts. Keep going, champion!".
Definition default : string :=
  "I'm having trouble connecting right now. Please try again! 🤖".
End fallbackResponses.

(** The keyword chain of the outer [catch]. *)
Definition selectFallback (lowerMessage : string) : string :=
  if Js.includes lowerMessage "workout" || Js.includes lowerMessage "exercise"
  then fallbackResponses.workout
  else if Js.includes lowerMessage "diet" || Js.includes lowerMessage "nutrition"
  then fallbackResponses.diet
  else if Js.includes lowerMessage "motivation"
  then fallbackResponses.motivation
  else fallbackResponses.default.

(** The outer [catch], for a message that is a string or absent: the canned
    reply. ([catchBlock] below covers a message of any JSON type.) *)
Definition fallbackResponse (clock : Clock) (message : option string)
    : Response :=
  let lowerMessage :=
    match message with
    | Some m => let l := Js.toLowerCase m in if Js.truthy l then l else EmptyString
    | None => EmptyString
    end in
  let fallbackText := selectFallback lowerMessage in
  Json 200
    (BMessage
       {| msgId := clock 0%nat; msgText := fallbackText +:+ " (Offline mode)";
          sender := "bot"; timestamp := clock 1%nat |}
       (Some true)).

Definition missingFields : Response :=
  Json 400 (BError "Session ID and message are required").

Definition sessionNotFound : Response :=
  Json 404 (BError "Chat session not found. Please start a new session.").

(** A value of the JSON body, as far as the outer [catch] tells values
    apart: absent ([undefined] or [null]), a string, or a value of another
    type (number, boolean, array, object). *)
Inductive JsValue :=
| JAbsent
| JString (s : string)
| JOther.

(** The outer [catch] on any [req.body.message]. The optional chaining of
    line 220 stops at an absent value only; on a value that is neither
    absent nor a string [toLowerCase] is not a function, the call throws
    inside the [catch] and nothing is sent. *)
Definition catchBlock (clock : Clock) (message : JsValue) : Result Response :=
  match message with
  | JAbsent => Returned (fallbackResponse clock None)
  | JString m => Returned (fallbackResponse clock (Some m))
  | JOther => Thrown
  end.

(** [stream = false] in the destructuring of the body. *)
Definition streamFlag (req : MessageRequest) : bool :=
  match reqStream req with
  | Some b => b
  | None => false
  end.

Definition postMessage (clock : Clock) (provider : Provider)
    (req : MessageRequest) (chatSessions : Store) : Response * Store :=
  let stream := streamFlag req in
  match reqSessionId req, reqMessage req with
  | Some sessionId, Some message =>
      if negb (Js.truthy sessionId) || negb (Js.truthy message)
      then (missingFields, chatSessions)
      else
        match chatSessions !! sessionId with
        | None => (sessionNotFound, chatSessions)
        | Some chat =>
            if stream then
              let '(frames, chat') :=
                streamBranch sessionId message chat (onStream provider) in
              (EventStream frames, <[sessionId := chat']> chatSessions)
            else
              match sendMessage chat message (onSend provider) with
              | (chat', Returned botReply) =>
                  (Json 200
                     (BMessage
                        {| msgId := clock 0%nat; msgText := botReply;
                           sender := "bot"; timestamp := clock 1%nat |}
                        None),
                   <[sessionId := chat']> chatSessions)
              | (chat', Thrown) =>
                  (fallbackResponse clock (reqMessage req),
                   <[sessionId := chat']> chatSessions)
              end
        end
  | _, _ => (missingFields, chatSessions)
  end.

(** ** GET /api/chat/history/:sessionId *)

Definition historyItem (clock : Clock) (index : nat) (item : Turn) : Message :=
  {| msgId := Z.of_nat index;
     msgText := text item;
     sender := if String.eqb (role item) "user" then "user" else "bot";
     timestamp := clock index |}.

Definition getHistoryRoute (clock : Clock) (sessionId : string)
    (chatSessions : Store) : Response :=
  match chatSessions !! sessionId with
  | None => Json 404 (BError "Chat session not found")
  | Some chat => Json 200 (BHistory (imap (historyItem clock) (getHistory chat)))
  end.

(** ** DELETE /api/chat/:sessionId *)

Definition deleteRoute (sessionId : string) (chatSessions : Store)
    : Response * Store :=
  match chatSessions !! sessionId with
  | Some _ =>
      (Json 200 (BInfo "Chat session cleared successfully"),
       delete sessionId chatSessions)
  | None => (Json 404 (BError "Chat session not found"), chatSessions)
  end.

(** ** The hourly cleanup *)

Definition oneHour : Z := 60 * 60 * 1000.

(** [now - parseInt(sessionId) > oneHour]; a comparison with [NaN] is
    false. *)
Definition expired (now : Z) (sessionId : string) : bool :=
  match Js.parseInt sessionId with
  | Some created => oneHour <? now - created
  | None => false
  end.

(** The body of the [setInterval] callback, run with [Date.now() = now]:
    every key of the map is visited once, and deleted when too old. *)
Definition sweep (now : Z) (chatSessions : Store) : Store :=
  foldr (fun sessionId sessions =>
           if expired now sessionId then delete sessionId sessions
           else sessions)
        chatSessions (map fst (map_to_list chatSessions)).

(** ** Runs of the server *)

(** What happens to the store, one event at a time. *)
Inductive Event :=
| EvStart (clock : Clock)
| EvMessage (clock : Clock) (provider : Provider) (req : MessageRequest)
| EvDelete (sessionId : string)
| EvSweep (now : Z).

Definition step (chatSessions : Store) (e : Event) : Store :=
  match e with
  | EvStart clock => snd (postStart clock chatSessions)
  | EvMessage clock provider req => snd (postMessage clock provider req chatSessions)
  | EvDelete sessionId => snd (deleteRoute sessionId chatSessions)
  | EvSweep now => sweep now chatSessions
  end.

Definition run (events : list Event) (chatSessions : Store) : Store :=
  foldl step chatSessions events.

(** The identifier a start call hands out. *)
Definition issuedBy (e : Event) : list string :=
  match e with
  | EvStart clock => [Js.toString (clock 0%nat)]
  | _ => []
  end.

Definition issued (events : list Event) : list string :=
  flat_map issuedBy events.

(** ** The CORS policy *)

(** What the [origin] function hands to its callback: [callback(err, allow)]. *)
Record CorsDecision := { corsError : option string; corsAllow : bool }.

(** [corsOptions.origin]: the request's [Origin] header, possibly absent. *)
Definition corsOrigin (origin : option string) : CorsDecision :=
  let allowed := {| corsError := None; corsAllow := true |} in
  match origin with
  | None => allowed
  | Some o =>
      if negb (Js.truthy o) then allowed
      else if Js.includes o "localhost" || Js.includes o "127.0.0.1"
      then allowed
      else if Js.includes o "flexai" || Js.includes o "onrender.com"
              || Js.includes o "vercel.app" || Js.includes o "netlify.app"
      then allowed
      else allowed
  end.

(** ** Frames on the wire *)

(** [JSON.stringify] of a string, on bytes: the double quote and the
    backslash are escaped, the control characters below 32 are written with
    their short escape or as [\u00XX], every other byte is kept. *)
Definition hexDigit (n : N) : ascii :=
  if (n <? 10)%N then ascii_of_N (48 + n) else ascii_of_N (87 + n).

Definition escapeChar (c : ascii) : string :=
  let n := N_of_ascii c in
  if (n =? 34)%N then String "\"%char (String c EmptyString)
  else if (n =? 92)%N then String "\"%char (String c EmptyString)
  else if (n =? 8)%N then "\b"
  else if (n =? 12)%N then "\f"
  else if (n =? 10)%N then "\n"
  else if (n =? 13)%N then "\r"
  else if (n =? 9)%N then "\t"
  else if (n <? 32)%N
  then "\u00" +:+ String (hexDigit (n / 16)) (String (hexDigit (n mod 16)) EmptyString)
  else String c EmptyString.

Fixpoint escape (s : string) : string :=
  match s with
  | EmptyString => EmptyString
  | String c rest => escapeChar c +:+ escape rest
  end.

Definition doubleQuote : string := String "034"%char EmptyString.

Definition jsonString (s : string) : string :=
  doubleQuote +:+ escape s +:+ doubleQuote.

Definition jsonField (name value : string) : string :=
  jsonString name +:+ ":" +:+ jsonString value.

(** [JSON.stringify({type, text | fullText | error, sessionId})]: the keys
    in the order of the object literal. *)
Definition stringifyFrame (f : Frame) : string :=
  match f with
  | ChunkFrame text sessionId =>
      "{" +:+ jsonField "type" "chunk" +:+ "," +:+ jsonField "text" text
          +:+ "," +:+ jsonField "sessionId" sessionId +:+ "}"
  | CompleteFrame fullText sessionId =>
      "{" +:+ jsonField "type" "complete" +:+ ","
          +:+ jsonField "fullText" fullText
          +:+ "," +:+ jsonField "sessionId" sessionId +:+ "}"
  | ErrorFrame error sessionId =>
      "{" +:+ jsonField "type" "error" +:+ "," +:+ jsonField "error" error
          +:+ "," +:+ jsonField "sessionId" sessionId +:+ "}"
  end.

Definition lineFeed : string := String "010"%char EmptyString.

(** The argument of [res.write]: [data: ${JSON.stringify(...)}\n\n]. *)
Definition sseData (f : Frame) : string :=
  "data: " +:+ stringifyFrame f +:+ lineFeed +:+ lineFeed.

(** A line feed or a carriage return occurs in [s]. *)
Fixpoint hasLineBreak (s : string) : bool :=
  match s with
  | EmptyString => false
  | String c rest =>
      let n := N_of_ascii c in
      ((n =? 10) || (n =? 13))%N || hasLineBreak rest
  end.

(** Reading back the first character of an escaped text: the inverse of
    [escapeChar], used to tell written texts apart. *)
Definition hexValue (c : ascii) : N :=
  let n := N_of_ascii c in
  if (n <=? 57)%N then (n - 48)%N else (n - 87)%N.

Definition unescapeHead (s : string) : option (ascii * string) :=
  match s with
  | EmptyString => None
  | String c rest =>
      if (N_of_ascii c =? 92)%N then
        match rest with
        | EmptyString => None
        | String e rest' =>
            let k := N_of_ascii e in
            if (k =? 117)%N then
              match rest' with
              | String _ (String _ (String h (String l r))) =>
                  Some (ascii_of_N (16 * hexValue h + hexValue l), r)
              | _ => None
              end
            else if (k =? 98)%N then Some (ascii_of_N 8, rest')
            else if (k =? 102)%N then Some (ascii_of_N 12, rest')
            else if (k =? 110)%N then Some (ascii_of_N 10, rest')
            else if (k =? 114)%N then Some (ascii_of_N 13, rest')
            else if (k =? 116)%N then Some (ascii_of_N 9, rest')
            else Some (e, rest')
        end
      else Some (c, rest)
  end.

(** The bytes of a whole event stream: what the successive [res.write]
    calls send, in order. *)
Fixpoint streamBody (frames : list Frame) : string :=
  match frames with
  | [] => EmptyString
  | f :: rest => sseData f +:+ streamBody rest
  end.

(** The number of start calls in a run. *)
Definition starts (events : list Event) : nat := length (issued events).

(** An event that leaves the conversation of [sessionId] alone: a start
    call that reads another millisecond, a message or a deletion naming
    another identifier, a cleanup for which [sessionId] is not yet too old. *)
Definition Foreign (sessionId : string) (e : Event) : Prop :=
  match e with
  | EvStart clock => Js.toString (clock 0%nat) <> sessionId
  | EvMessage _ _ req => reqSessionId req <> Some sessionId
  | EvDelete sid => sid <> sessionId
  | EvSweep now => expired now sessionId = false
  end.

(** ** Vocabulary of the statements *)

(** [pat] occurs in [s]. *)
Definition Occurs (pat s : string) : Prop :=
  exists pre post, s = pre +:+ pat +:+ post.

(** The request names a stored conversation and passes the presence check:
    the handler goes on to call the provider. *)
Definition Reaches (req : MessageRequest) (chatSessions : Store)
    (sessionId message : string) (chat : ChatSession) : Prop :=
  reqSessionId req = Some sessionId /\ reqMessage req = Some message /\
  Js.truthy sessionId = true /\ Js.truthy message = true /\
  chatSessions !! sessionId = Some chat.

(** The texts of the [chunk] frames and of the [complete] frames of a
    stream, in the order they were written. *)
Definition chunkTexts (frames : list Frame) : list string :=
  omap (fun f => match f with ChunkFrame t _ => Some t | _ => None end) frames.

Definition completeTexts (frames : list Frame) : list string :=
  omap (fun f => match f with CompleteFrame t _ => Some t | _ => None end) frames.

(** The turns of the assistant in a history. *)
Definition assistantTurns (h : list Turn) : list Turn :=
  List.filter (fun t => String.eqb (role t) "model") h.

(** The text and the offline flag of a JSON reply. *)
Definition replyText (r : Response) : option string :=
  match r with
  | Json _ (BMessage m _) => Some (msgText m)
  | _ => None
  end.

Definition offlineFlag (r : Response) : option bool :=
  match r with
  | Json _ (BMessage _ flag) => flag
  | _ => None
  end.

(** The three ways the specification names for an identifier to have no
    conversation: no start call ever handed it out, it was deleted, or the
    cleanup removed it after its age passed one hour. *)
Inductive Gone (sessionId : string) : Store -> Prop :=
| NeverCreated (events : list Event) :
    sessionId ∉ issued events -> Gone sessionId (run events ∅)
| Deleted (chatSessions : Store) :
    Gone sessionId (snd (deleteRoute sessionId chatSessions))
| Swept (chatSessions : Store) (created now : Z) :
    sessionId = Js.toString created -> oneHour < now - created ->
    Gone sessionId (sweep now chatSessions).

(** One successful non-streaming call on [sessionId]: the event, with the
    text sent and the reply of the provider. *)
Definition SuccessfulSend (sessionId : string) (e : Event)
    (exchange : string * string) : Prop :=
  exists clock provider req,
    e = EvMessage clock provider req
    /\ reqSessionId req = Some sessionId
    /\ reqMessage req = Some (fst exchange)
    /\ Js.truthy (fst exchange) = true
    /\ streamFlag req = false
    /\ onSend provider = Replied (snd exchange).

(** The turns one exchange adds to a history, and what the history route
    shows of a turn: its sender tag and its text. *)
Definition exchangeTurns (exchange : string * string) : list Turn :=
  [userTurn (fst exchange); modelTurn (snd exchange)].

Definition shown (m : Message) : string * string := (sender m, msgText m).

Definition exchangeShown (exchange : string * string) : list (string * string) :=
  [("user", fst exchange); ("bot", snd exchange)].

(** What the history route shows of a turn, whatever the clock. *)
Definition turnShown (t : Turn) : string * string :=
  (if String.eqb (role t) "user" then "user" else "bot", text t).

(** A byte of the ASCII range, and a string made of such bytes. *)
Definition asciiByte (c : ascii) : bool := (N_of_ascii c <? 128)%N.

Fixpoint isAscii (s : string) : bool :=
  match s with
  | EmptyString => true
  | String c rest => asciiByte c && isAscii rest
  end.

(** A decimal digit, by its code, and a string of decimal digits. *)
Definition isDigit (c : ascii) : bool :=
  let n := N_of_ascii c in ((48 <=? n) && (n <=? 57))%N.

Fixpoint allDigits (s : string) : bool :=
  match s with
  | EmptyString => true
  | String c rest => isDigit c && allDigits rest
  end.

(** ** Data of the examples *)

(** A clock that ticks once between two readings, and a store holding one
    fresh conversation, used below. *)
Definition tickingClock : Clock := fun k => 1700000000000 + Z.of_nat k.

Definition oneSession : Store := <["1700000000000" := startChat]> ∅.

(** Requests and providers. *)
Definition streamRequest : MessageRequest :=
  {| reqSessionId := Some "1700000000000"; reqMessage := Some "Plan my workout";
     reqStream := Some true |}.

Definition plainRequest (message : string) : MessageRequest :=
  {| reqSessionId := Some "1700000000000"; reqMessage := Some message;
     reqStream := None |}.

Definition threeChunks : Provider :=
  {| onSend := SendFailed; onStream := Completed ["Do "; "ten "; "squats"] |}.

Definition brokenAfterTwo : Provider :=
  {| onSend := SendFailed; onStream := Interrupted ["Do "; "ten "] |}.

Definition unreachable : Provider :=
  {| onSend := SendFailed; onStream := Rejected |}.

(** A provider that answers. *)
Definition answering (reply : string) : Provider :=
  {| onSend := Replied reply; onStream := Rejected |}.

(** * Properties *)

Example toString_now : Js.toString 1700000000000 = "1700000000000"%string.
Proof. reflexivity. Qed.

Example parseInt_now : Js.parseInt "1700000000000" = Some 1700000000000.
Proof. reflexivity. Qed.

Example lower_ex : Js.toLowerCase "My WORKOUT!" = "my workout!"%string.
Proof. reflexivity. Qed.

Example includes_ex : Js.includes "my workout!" "workout" = true.
Proof. reflexivity. Qed.

Example lower_kelvin :
  Js.toLowerCase ("WOR" +:+ Js.kelvinSign +:+ "OUT") = "workout"%string.
Proof. reflexivity. Qed.

Example lower_dotted :
  Js.toLowerCase ("D" +:+ Js.capitalDottedI +:+ "ET")
  = "d" +:+ Js.smallDottedI +:+ "et"
  /\ Js.includes (Js.toLowerCase ("D" +:+ Js.capitalDottedI +:+ "ET")) "diet"
     = false.
Proof. split; reflexivity. Qed.

Example lower_other : Js.toLowerCase "Crème brûlée" = "crème brûlée"%string.
Proof. reflexivity. Qed.

Example parseInt_hex : Js.parseInt "  -0x1F rest" = Some (-31).
Proof. reflexivity. Qed.

Example parseInt_nan : Js.parseInt "abc" = None.
Proof. reflexivity. Qed.

(** ** Facts about the built-ins *)

Section Includes.

Lemma startsWith_spec (s pat : string) :
  Js.startsWith s pat = true <-> exists post, s = pat +:+ post.
Proof.
  revert s. induction pat as [|p pat IH]; intros s; simpl.
  - split; [intros _; now exists s | intros _; now destruct s].
  - destruct s as [|c s]; simpl.
    + split; [discriminate | intros [post H]; discriminate].
    + rewrite andb_true_iff, Ascii.eqb_eq, IH. split.
      * intros [-> [post ->]]. now exists post.
      * intros [post H]. injection H as -> ->. split; [reflexivity | now exists post].
Qed.

Lemma includes_spec (s pat : string) :
  Js.includes s pat = true <-> Occurs pat s.
Proof.
  unfold Occurs. induction s as [|c s IH].
  - cbn [Js.includes]. rewrite orb_false_r, startsWith_spec. split.
    + intros [post H]. now exists EmptyString, post.
    + intros [pre [post H]]. destruct pre; simpl in H; [now exists post | discriminate].
  - cbn [Js.includes]. rewrite orb_true_iff, IH, startsWith_spec. split.
    + intros [[post H] | [pre [post H]]].
      * now exists EmptyString, post.
      * exists (String c pre), post. simpl. now rewrite H.
    + intros [pre [post H]]. destruct pre as [|c' pre]; simpl in H.
      * left. now exists post.
      * right. injection H as _ H. now exists pre, post.
Qed.

Lemma includes_false (s pat : string) :
  Js.includes s pat = false <-> ~ Occurs pat s.
Proof.
  rewrite <- includes_spec. destruct (Js.includes s pat); split; congruence.
Qed.

End Includes.

Section Decimal.

Lemma digitChar_code (d : Z) :
  0 <= d < 10 -> N_of_ascii (Js.digitChar d) = (48 + Z.to_N d)%N.
Proof.
  intros Hd. unfold Js.digitChar. apply N_ascii_embedding. lia.
Qed.

Lemma digitChar_isDigit (d : Z) : 0 <= d < 10 -> isDigit (Js.digitChar d) = true.
Proof.
  intros Hd. unfold isDigit. rewrite digitChar_code by exact Hd.
  apply andb_true_iff. split; apply N.leb_le; lia.
Qed.

Lemma digitValue_digitChar (d : Z) :
  0 <= d < 10 -> Js.digitValue 10 (Js.digitChar d) = Some d.
Proof.
  intros Hd. unfold Js.digitValue. rewrite digitChar_code by exact Hd.
  replace (Z.of_N (48 + Z.to_N d)) with (48 + d) by lia.
  replace ((48 <=? 48 + d) && (48 + d <=? 57)) with true
    by (symmetry; apply andb_true_iff; split; apply Z.leb_le; lia).
  replace (48 + d - 48) with d by lia.
  replace (d <? 10) with true by (symmetry; apply Z.ltb_lt; lia).
  reflexivity.
Qed.

(** Reading back the digits written in front of [rest]. *)
Lemma parseDigits_digitsOf (fuel : nat) : forall (n : Z) (rest : string),
  (0 < fuel)%nat -> 0 <= n < 2 ^ Z.of_nat fuel ->
  Js.parseDigits 10 (Js.digitsOf fuel n rest) None
  = Js.parseDigits 10 rest (Some n).
Proof.
  induction fuel as [|fuel IH]; intros n rest Hf Hn; [lia |].
  cbn [Js.digitsOf].
  assert (Hmod : 0 <= n mod 10 < 10) by (apply Z.mod_pos_bound; lia).
  destruct (Z.ltb_spec n 10) as [Hlt | Hge].
  - cbn [Js.parseDigits]. rewrite digitValue_digitChar by exact Hmod.
    rewrite Z.mod_small by lia. do 2 f_equal; lia.
  - assert (Hpow : 2 ^ Z.of_nat (S fuel) = 2 * 2 ^ Z.of_nat fuel).
    { rewrite Nat2Z.inj_succ, Z.pow_succ_r by lia. reflexivity. }
    assert (Hdiv : 0 <= n / 10 < 2 ^ Z.of_nat fuel).
    { split; [apply Z.div_pos; lia |].
      apply Z.div_lt_upper_bound; lia. }
    assert (Hfuel : (0 < fuel)%nat).
    { destruct fuel; [simpl in Hn; lia | lia]. }
    rewrite IH by assumption.
    cbn [Js.parseDigits]. rewrite digitValue_digitChar by exact Hmod.
    pose proof (Z.div_mod n 10). do 2 f_equal; lia.
Qed.

Lemma digitsFuel_enough (n : Z) :
  0 <= n -> (0 < Js.digitsFuel n)%nat /\ 0 <= n < 2 ^ Z.of_nat (Js.digitsFuel n).
Proof.
  intros Hn. unfold Js.digitsFuel. split; [lia |]. split; [exact Hn |].
  rewrite Nat2Z.inj_succ, Z2Nat.id by apply Z.log2_nonneg.
  destruct (Z.eq_dec n 0) as [-> | Hne]; [reflexivity |].
  apply Z.log2_spec. lia.
Qed.

Lemma digitsOf_allDigits (fuel : nat) : forall (n : Z) (acc : string),
  allDigits acc = true -> allDigits (Js.digitsOf fuel n acc) = true.
Proof.
  induction fuel as [|fuel IH]; intros n acc Hacc; [exact Hacc |].
  cbn [Js.digitsOf].
  assert (Hd : allDigits (String (Js.digitChar (n mod 10)) acc) = true).
  { cbn [allDigits]. rewrite Hacc, digitChar_isDigit; [reflexivity |].
    apply Z.mod_pos_bound; lia. }
  destruct (n <? 10); [exact Hd | now apply IH].
Qed.

Lemma digitsOf_truthy (fuel : nat) (n : Z) (acc : string) :
  (0 < fuel)%nat -> Js.truthy (Js.digitsOf fuel n acc) = true.
Proof.
  revert n acc. induction fuel as [|fuel IH]; intros n acc Hf; [lia |].
  cbn [Js.digitsOf]. destruct (n <? 10); [reflexivity |].
  destruct fuel as [|fuel']; [reflexivity | apply IH; lia].
Qed.

(** A string of digits carries no white space, sign or radix prefix. *)
Lemma isDigit_code (c : ascii) :
  isDigit c = true -> (48 <= N_of_ascii c <= 57)%N.
Proof.
  unfold isDigit. intros H. apply andb_true_iff in H as [H1 H2].
  apply N.leb_le in H1, H2. lia.
Qed.

Lemma isDigit_neq (c d : ascii) :
  isDigit c = true -> isDigit d = false -> Ascii.eqb c d = false.
Proof.
  intros Hc Hd. apply Ascii.eqb_neq. intros ->. congruence.
Qed.

Lemma trimStart_digits (s : string) : allDigits s = true -> Js.trimStart s = s.
Proof.
  destruct s as [|c s]; [reflexivity |]. cbn [allDigits Js.trimStart].
  intros H. apply andb_true_iff in H as [Hc _]. apply isDigit_code in Hc.
  unfold Js.isWhiteSpace.
  replace (N_of_ascii c =? 32)%N with false by (symmetry; apply N.eqb_neq; lia).
  replace (9 <=? N_of_ascii c)%N with true by (symmetry; apply N.leb_le; lia).
  replace (N_of_ascii c <=? 13)%N with false by (symmetry; apply N.leb_gt; lia).
  reflexivity.
Qed.

Lemma stripSign_digits (s : string) :
  allDigits s = true -> Js.stripSign s = (1, s).
Proof.
  destruct s as [|c s]; [reflexivity |]. cbn [allDigits Js.stripSign].
  intros H. apply andb_true_iff in H as [Hc _].
  rewrite !(isDigit_neq c) by (exact Hc || reflexivity). reflexivity.
Qed.

Lemma stripHexPrefix_digits (s : string) :
  allDigits s = true -> Js.stripHexPrefix s = (10, s).
Proof.
  destruct s as [|c1 [|c2 s]]; try reflexivity. cbn [allDigits Js.stripHexPrefix].
  intros H. apply andb_true_iff in H as [_ H]. apply andb_true_iff in H as [Hc _].
  rewrite !(isDigit_neq c2) by (exact Hc || reflexivity).
  now rewrite andb_false_r.
Qed.

Lemma parseInt_digits (n : Z) :
  0 <= n ->
  Js.parseInt (Js.digitsOf (Js.digitsFuel n) n EmptyString) = Some n.
Proof.
  intros Hn. destruct (digitsFuel_enough n Hn) as [Hf Hb].
  pose proof (digitsOf_allDigits (Js.digitsFuel n) n EmptyString eq_refl) as Hd.
  unfold Js.parseInt.
  rewrite trimStart_digits, stripSign_digits, stripHexPrefix_digits by exact Hd.
  rewrite parseDigits_digitsOf by assumption. cbn [Js.parseDigits].
  f_equal; lia.
Qed.

(** [parseInt] reads back what [toString] wrote. *)
Lemma parseInt_toString (n : Z) : Js.parseInt (Js.toString n) = Some n.
Proof.
  unfold Js.toString. destruct (Z.ltb_spec n 0) as [Hneg | Hpos].
  - assert (Hn : 0 <= - n) by lia.
    destruct (digitsFuel_enough _ Hn) as [Hf Hb].
    pose proof (digitsOf_allDigits (Js.digitsFuel (- n)) (- n) EmptyString eq_refl) as Hd.
    unfold Js.parseInt. cbn [Js.trimStart].
    replace (Js.isWhiteSpace "-") with false by reflexivity.
    cbn [Js.stripSign]. replace (Ascii.eqb "-" "-") with true by reflexivity.
    rewrite stripHexPrefix_digits by exact Hd.
    rewrite parseDigits_digitsOf by assumption. cbn [Js.parseDigits].
    f_equal; lia.
  - now apply parseInt_digits.
Qed.

Lemma toString_inj (a b : Z) : Js.toString a = Js.toString b -> a = b.
Proof.
  intros H. apply (f_equal Js.parseInt) in H.
  rewrite !parseInt_toString in H. congruence.
Qed.

Lemma toString_truthy (n : Z) : Js.truthy (Js.toString n) = true.
Proof.
  unfold Js.toString. destruct (n <? 0); [reflexivity |].
  apply digitsOf_truthy. unfold Js.digitsFuel. lia.
Qed.

End Decimal.

(** ** The store: cleanup and runs *)

Section StoreFacts.

Implicit Types (chatSessions : Store) (sessionId : string).

Lemma lookup_sweep_keys (now : Z) (keys : list string) chatSessions sessionId :
  foldr (fun k sessions =>
           if expired now k then delete k sessions else sessions)
        chatSessions keys !! sessionId
  = if expired now sessionId && bool_decide (sessionId ∈ keys)
    then None else chatSessions !! sessionId.
Proof.
  induction keys as [|k keys IH]; cbn [foldr].
  - rewrite bool_decide_eq_false_2 by apply not_elem_of_nil.
    now rewrite andb_false_r.
  - destruct (decide (k = sessionId)) as [-> | Hne].
    + rewrite (bool_decide_eq_true_2 (sessionId ∈ sessionId :: keys))
        by apply list_elem_of_here.
      rewrite andb_true_r. destruct (expired now sessionId) eqn:He.
      * apply lookup_delete_eq.
      * rewrite IH, ?He. reflexivity.
    + assert (Hin : bool_decide (sessionId ∈ k :: keys)
                    = bool_decide (sessionId ∈ keys)).
      { apply bool_decide_ext. rewrite elem_of_cons.
        split; [intros [Heq | H]; [congruence | exact H] | intros H; now right]. }
      rewrite Hin. destruct (expired now k).
      * rewrite lookup_delete_ne by exact Hne. exact IH.
      * exact IH.
Qed.

(** The cleanup removes the expired keys and nothing else. *)
Lemma lookup_sweep (now : Z) chatSessions sessionId :
  sweep now chatSessions !! sessionId
  = if expired now sessionId then None else chatSessions !! sessionId.
Proof.
  unfold sweep. rewrite lookup_sweep_keys.
  destruct (expired now sessionId); [| reflexivity]. cbn [andb].
  case_bool_decide as Hin; [reflexivity |].
  apply eq_None_not_Some. intros [chat Hchat]. apply Hin.
  apply list_elem_of_In, in_map_iff. exists (sessionId, chat).
  split; [reflexivity |]. apply list_elem_of_In. now apply elem_of_map_to_list.
Qed.

(** A send never adds or removes a key. *)
Lemma postMessage_is_Some clock provider req chatSessions sessionId :
  is_Some (snd (postMessage clock provider req chatSessions) !! sessionId)
  <-> is_Some (chatSessions !! sessionId).
Proof.
  unfold postMessage.
  destruct (reqSessionId req) as [sid|], (reqMessage req) as [msg|];
    try reflexivity.
  destruct (negb (Js.truthy sid) || negb (Js.truthy msg)); [reflexivity |].
  destruct (chatSessions !! sid) as [chat|] eqn:Hchat; [| reflexivity].
  assert (Hins : forall chat', is_Some (<[sid := chat']> chatSessions !! sessionId)
                          <-> is_Some (chatSessions !! sessionId)).
  { intros chat'. destruct (decide (sid = sessionId)) as [<- | Hne].
    - rewrite lookup_insert_eq, Hchat. split; eauto.
    - now rewrite lookup_insert_ne. }
  destruct (streamFlag req).
  - destruct (streamBranch sid msg chat (onStream provider)). apply Hins.
  - destruct (sendMessage chat msg (onSend provider)) as [chat' [reply|]];
      apply Hins.
Qed.

(** Every stored key was handed out by a start call. *)
Lemma step_keys chatSessions (e : Event) sessionId :
  is_Some (step chatSessions e !! sessionId) ->
  is_Some (chatSessions !! sessionId) \/ sessionId ∈ issuedBy e.
Proof.
  destruct e as [clock | clock provider req | sid | now]; cbn [step issuedBy].
  - unfold postStart. cbn [snd].
    destruct (decide (Js.toString (clock 0%nat) = sessionId)) as [<- | Hne].
    + intros _. right. apply list_elem_of_here.
    + rewrite lookup_insert_ne by exact Hne. now left.
  - rewrite postMessage_is_Some. now left.
  - unfold deleteRoute. destruct (chatSessions !! sid); cbn [snd]; [| now left].
    destruct (decide (sid = sessionId)) as [<- | Hne].
    + rewrite lookup_delete_eq. intros [? ?]. discriminate.
    + rewrite lookup_delete_ne by exact Hne. now left.
  - rewrite lookup_sweep. destruct (expired now sessionId); [| now left].
    intros [? ?]. discriminate.
Qed.

Lemma run_keys (events : list Event) : forall chatSessions sessionId,
  is_Some (run events chatSessions !! sessionId) ->
  is_Some (chatSessions !! sessionId) \/ sessionId ∈ issued events.
Proof.
  unfold run, issued.
  induction events as [|e events IH]; intros chatSessions sessionId H;
    cbn [foldl flat_map] in *; [now left |].
  apply IH in H as [H | H].
  - apply step_keys in H as [H | H]; [now left | right].
    apply elem_of_app. now left.
  - right. apply elem_of_app. now right.
Qed.

Lemma never_issued_absent (events : list Event) sessionId :
  sessionId ∉ issued events -> run events ∅ !! sessionId = None.
Proof.
  intros Hnot. apply eq_None_not_Some. intros H.
  apply run_keys in H as [H | H]; [| contradiction].
  rewrite lookup_empty in H. destruct H. discriminate.
Qed.

End StoreFacts.

(** ** Sending a message *)

Section Strings.

Lemma append_nil_r (s : string) : s +:+ EmptyString = s.
Proof.
  induction s as [|c s IH]; [reflexivity |].
  change (String c (s +:+ EmptyString) = String c s). now rewrite IH.
Qed.

Lemma append_assoc (a b c : string) : (a +:+ b) +:+ c = a +:+ (b +:+ c).
Proof.
  induction a as [|x a IH]; [reflexivity |].
  change (String x ((a +:+ b) +:+ c) = String x (a +:+ (b +:+ c))).
  now rewrite IH.
Qed.

Lemma concat_cons (x : string) (xs : list string) :
  String.concat EmptyString (x :: xs) = x +:+ String.concat EmptyString xs.
Proof.
  destruct xs as [|y xs]; cbn [String.concat].
  - now rewrite append_nil_r.
  - reflexivity.
Qed.

End Strings.

Section SendMessage.

Variables (clock : Clock) (provider : Provider) (req : MessageRequest).
Variables (chatSessions : Store) (sessionId message : string).
Variable (chat : ChatSession).
Hypothesis Hreach : Reaches req chatSessions sessionId message chat.

Lemma postMessage_stream :
  streamFlag req = true ->
  postMessage clock provider req chatSessions
  = (EventStream (fst (streamBranch sessionId message chat (onStream provider))),
     <[sessionId := snd (streamBranch sessionId message chat (onStream provider))]>
       chatSessions).
Proof.
  destruct Hreach as (Hs & Hm & Hts & Htm & Hchat). intros Hflag.
  unfold postMessage. rewrite Hs, Hm, Hts, Htm, Hchat, Hflag. cbn [negb orb].
  now destruct (streamBranch sessionId message chat (onStream provider)).
Qed.

Lemma postMessage_sync :
  streamFlag req = false ->
  postMessage clock provider req chatSessions
  = match sendMessage chat message (onSend provider) with
    | (chat', Returned botReply) =>
        (Json 200
           (BMessage
              {| msgId := clock 0%nat; msgText := botReply; sender := "bot";
                 timestamp := clock 1%nat |} None),
         <[sessionId := chat']> chatSessions)
    | (chat', Thrown) =>
        (fallbackResponse clock (Some message),
         <[sessionId := chat']> chatSessions)
    end.
Proof.
  destruct Hreach as (Hs & Hm & Hts & Htm & Hchat). intros Hflag.
  unfold postMessage. rewrite Hs, Hm, Hts, Htm, Hchat, Hflag. cbn [negb orb].
  reflexivity.
Qed.

End SendMessage.

(** The loop adds every chunk to the text and writes one frame per chunk. *)
Lemma relayChunks_spec (sessionId : string) (cs : list string) :
  forall (fullResponse : string) (written : list Frame),
    relayChunks sessionId cs fullResponse written
    = (fullResponse +:+ String.concat EmptyString cs,
       written ++ map (fun c => ChunkFrame c sessionId) cs).
Proof.
  induction cs as [|c cs IH]; intros fullResponse written.
  - cbn [relayChunks String.concat map]. now rewrite append_nil_r, app_nil_r.
  - cbn [relayChunks]. rewrite IH, concat_cons, append_assoc.
    cbn [map]. now rewrite <- app_assoc.
Qed.

Lemma chunkTexts_chunks (sessionId : string) (cs : list string) :
  chunkTexts (map (fun c => ChunkFrame c sessionId) cs) = cs.
Proof.
  unfold chunkTexts. induction cs as [|c cs IH]; [reflexivity |].
  cbn [map]. cbn. f_equal. exact IH.
Qed.

Lemma completeTexts_chunks (sessionId : string) (cs : list string) :
  completeTexts (map (fun c => ChunkFrame c sessionId) cs) = [].
Proof.
  unfold completeTexts. induction cs as [|c cs IH]; [reflexivity |].
  cbn [map]. cbn. exact IH.
Qed.

(** The three ways the inner [try] can go. *)
Lemma streamBranch_completed sessionId message chat (cs : list string) :
  streamBranch sessionId message chat (Completed cs)
  = (map (fun c => ChunkFrame c sessionId) cs
       ++ [CompleteFrame (String.concat EmptyString cs) sessionId],
     appendTurn (modelTurn (String.concat EmptyString cs))
       (appendTurn (userTurn message) chat)).
Proof.
  unfold streamBranch, sendMessageStream. cbn [chunks ending].
  rewrite relayChunks_spec. reflexivity.
Qed.

Lemma streamBranch_interrupted sessionId message chat (cs : list string) :
  streamBranch sessionId message chat (Interrupted cs)
  = (map (fun c => ChunkFrame c sessionId) cs
       ++ [ErrorFrame "Streaming failed" sessionId],
     appendTurn (userTurn message) chat).
Proof.
  unfold streamBranch, sendMessageStream. cbn [chunks ending].
  rewrite relayChunks_spec. reflexivity.
Qed.

Lemma streamBranch_rejected sessionId message chat :
  streamBranch sessionId message chat Rejected
  = ([ErrorFrame "Streaming failed" sessionId],
     appendTurn (userTurn message) chat).
Proof. reflexivity. Qed.

Lemma oneSession_reaches (req : MessageRequest) (message : string) :
  reqSessionId req = Some "1700000000000" -> reqMessage req = Some message ->
  Js.truthy message = true ->
  Reaches req oneSession "1700000000000" message startChat.
Proof.
  intros Hs Hm Ht. unfold Reaches.
  split; [exact Hs |]. split; [exact Hm |]. split; [reflexivity |].
  split; [exact Ht |]. apply lookup_insert_eq.
Defined.

(** ** Streaming *)

(** C2. A streaming call whose stream runs to completion writes one [chunk]
    frame per fragment and then a single [complete] frame, the last frame of
    the stream; the texts of the [chunk] frames, concatenated in the order
    they were written, are the [fullText] of the [complete] frame. *)
Theorem stream_chunks_concat_to_fullText
    (clock : Clock) (provider : Provider) (req : MessageRequest)
    (chatSessions : Store) (sessionId message : string) (chat : ChatSession)
    (cs : list string) :
  Reaches req chatSessions sessionId message chat ->
  streamFlag req = true ->
  onStream provider = Completed cs ->
  exists frames fullText,
    fst (postMessage clock provider req chatSessions) = EventStream frames
    /\ last frames = Some (CompleteFrame fullText sessionId)
    /\ completeTexts frames = [fullText]
    /\ chunkTexts frames = cs
    /\ String.concat EmptyString (chunkTexts frames) = fullText.
Proof.
  intros Hreach Hflag Hdone.
  rewrite (postMessage_stream clock provider req chatSessions sessionId message
             chat Hreach Hflag), Hdone, streamBranch_completed.
  cbn [fst].
  exists (map (fun c => ChunkFrame c sessionId) cs
            ++ [CompleteFrame (String.concat EmptyString cs) sessionId]),
         (String.concat EmptyString cs).
  assert (Hchunks : chunkTexts
            (map (fun c => ChunkFrame c sessionId) cs
               ++ [CompleteFrame (String.concat EmptyString cs) sessionId]) = cs).
  { unfold chunkTexts. rewrite omap_app. fold (chunkTexts (map (fun c => ChunkFrame c sessionId) cs)).
    rewrite chunkTexts_chunks. cbn. apply app_nil_r. }
  split; [reflexivity |]. split; [apply last_snoc |]. split; [| split].
  - unfold completeTexts. rewrite omap_app.
    fold (completeTexts (map (fun c => ChunkFrame c sessionId) cs)).
    rewrite completeTexts_chunks. reflexivity.
  - exact Hchunks.
  - now rewrite Hchunks.
Qed.

Lemma stream_chunks_concat_witness :
  exists frames fullText,
    fst (postMessage tickingClock threeChunks streamRequest oneSession)
    = EventStream frames
    /\ last frames = Some (CompleteFrame fullText "1700000000000")
    /\ completeTexts frames = [fullText]
    /\ chunkTexts frames = ["Do "; "ten "; "squats"]
    /\ String.concat EmptyString (chunkTexts frames) = fullText.
Proof.
  apply (stream_chunks_concat_to_fullText tickingClock threeChunks streamRequest
           oneSession "1700000000000" "Plan my workout" startChat
           ["Do "; "ten "; "squats"]).
  - apply oneSession_reaches; reflexivity.
  - reflexivity.
  - reflexivity.
Defined.

(** C3. When the provider fails on a streaming call, the stream is already
    open: the response is the event stream, made of the [chunk] frames of the
    fragments delivered before the failure followed by one [error] frame that
    ends it, and the history of the conversation gains no assistant turn (the
    partial text is dropped). *)
Theorem stream_failure_ends_in_error_event
    (clock : Clock) (provider : Provider) (req : MessageRequest)
    (chatSessions : Store) (sessionId message : string) (chat : ChatSession)
    (delivered : list string) :
  Reaches req chatSessions sessionId message chat ->
  streamFlag req = true ->
  onStream provider = Interrupted delivered
  \/ (onStream provider = Rejected /\ delivered = []) ->
  exists chat',
    postMessage clock provider req chatSessions
    = (EventStream (map (fun c => ChunkFrame c sessionId) delivered
                      ++ [ErrorFrame "Streaming failed" sessionId]),
       <[sessionId := chat']> chatSessions)
    /\ assistantTurns (getHistory chat') = assistantTurns (getHistory chat).
Proof.
  intros Hreach Hflag Hfail.
  rewrite (postMessage_stream clock provider req chatSessions sessionId message
             chat Hreach Hflag).
  exists (appendTurn (userTurn message) chat).
  assert (Hturns : assistantTurns (getHistory (appendTurn (userTurn message) chat))
                   = assistantTurns (getHistory chat)).
  { unfold assistantTurns, getHistory, appendTurn. cbn [chatHistory].
    rewrite List.filter_app. cbn. apply app_nil_r. }
  destruct Hfail as [Hcut | [Hrej ->]].
  - rewrite Hcut, streamBranch_interrupted. cbn [fst snd]. now split.
  - rewrite Hrej, streamBranch_rejected. cbn [fst snd map app]. now split.
Qed.

Lemma stream_failure_witness :
  exists chat',
    postMessage tickingClock brokenAfterTwo streamRequest oneSession
    = (EventStream [ChunkFrame "Do " "1700000000000";
                    ChunkFrame "ten " "1700000000000";
                    ErrorFrame "Streaming failed" "1700000000000"],
       <["1700000000000" := chat']> oneSession)
    /\ assistantTurns (getHistory chat') = assistantTurns (getHistory startChat).
Proof.
  apply (stream_failure_ends_in_error_event tickingClock brokenAfterTwo
           streamRequest oneSession "1700000000000" "Plan my workout" startChat
           ["Do "; "ten "]).
  - apply oneSession_reaches; reflexivity.
  - reflexivity.
  - left. reflexivity.
Defined.

(** ** The offline reply *)

Lemma truthy_or_empty (l : string) :
  (if Js.truthy l then l else EmptyString) = l.
Proof. now destruct l. Qed.

(** The keyword chain, read as a first-match table. *)
Lemma selectFallback_cases (l : string) :
  (Occurs "workout" l \/ Occurs "exercise" l ->
   selectFallback l = fallbackResponses.workout)
  /\ (~ Occurs "workout" l -> ~ Occurs "exercise" l ->
      Occurs "diet" l \/ Occurs "nutrition" l ->
      selectFallback l = fallbackResponses.diet)
  /\ (~ Occurs "workout" l -> ~ Occurs "exercise" l ->
      ~ Occurs "diet" l -> ~ Occurs "nutrition" l ->
      Occurs "motivation" l ->
      selectFallback l = fallbackResponses.motivation)
  /\ (~ Occurs "workout" l -> ~ Occurs "exercise" l ->
      ~ Occurs "diet" l -> ~ Occurs "nutrition" l ->
      ~ Occurs "motivation" l ->
      selectFallback l = fallbackResponses.default).
Proof.
  unfold selectFallback. rewrite <- !includes_spec.
  destruct (Js.includes l "workout"), (Js.includes l "exercise"),
    (Js.includes l "diet"), (Js.includes l "nutrition"),
    (Js.includes l "motivation"); cbn [orb];
    repeat split; intros; try reflexivity;
    repeat match goal with
           | H : _ \/ _ |- _ => destruct H
           end; congruence.
Qed.

(** C5, as stated, fails twice. The text sent is the canned text followed by
    [" (Offline mode)"], never the canned text itself; and the keywords are
    tried in order, so a message naming a diet and a workout gets the workout
    tip, not the nutrition tip. *)
Lemma fallback_text_is_not_the_canned_text :
  let r1 := fst (postMessage tickingClock unreachable
                   (plainRequest "workout") oneSession) in
  let r2 := fst (postMessage tickingClock unreachable
                   (plainRequest "My DIET and workout") oneSession) in
  (Occurs "workout" (Js.toLowerCase "workout")
   /\ replyText r1 = Some (fallbackResponses.workout +:+ " (Offline mode)")
   /\ replyText r1 <> Some fallbackResponses.workout)
  /\ (Occurs "diet" (Js.toLowerCase "My DIET and workout")
      /\ replyText r2 = Some (fallbackResponses.workout +:+ " (Offline mode)")
      /\ replyText r2 <> Some fallbackResponses.diet
      /\ replyText r2 <> Some (fallbackResponses.diet +:+ " (Offline mode)")).
Proof.
  cbn zeta.
  assert (Hne : forall a b : string, String.eqb a b = false -> Some a <> Some b).
  { intros a b Hab Heq. injection Heq as ->. now rewrite String.eqb_refl in Hab. }
  split; [| split; [| split; [| split]]].
  - split; [apply includes_spec; reflexivity |].
    split; [reflexivity | apply Hne; reflexivity].
  - apply includes_spec. reflexivity.
  - reflexivity.
  - apply Hne. reflexivity.
  - apply Hne. reflexivity.
Qed.

(** C5, amended. For a message that is a string, when the provider fails
    on the non-streaming path the response is a 200 JSON reply flagged
    [isOffline], whose text is the canned
    text chosen from the lowercased message alone, followed by
    [" (Offline mode)"]. The choice is made by first match: the workout tip
    if the lowercased message contains "workout" or "exercise"; otherwise the
    nutrition tip if it contains "diet" or "nutrition"; otherwise the
    motivation tip if it contains "motivation"; otherwise the default text. *)
Theorem fallback_by_first_keyword
    (clock : Clock) (provider : Provider) (req : MessageRequest)
    (chatSessions : Store) (sessionId message : string) (chat : ChatSession) :
  Reaches req chatSessions sessionId message chat ->
  streamFlag req = false ->
  onSend provider = SendFailed ->
  let l := Js.toLowerCase message in
  let r := fst (postMessage clock provider req chatSessions) in
  r = Json 200
        (BMessage
           {| msgId := clock 0%nat;
              msgText := selectFallback l +:+ " (Offline mode)";
              sender := "bot"; timestamp := clock 1%nat |}
           (Some true))
  /\ replyText r = Some (selectFallback l +:+ " (Offline mode)")
  /\ offlineFlag r = Some true
  /\ (Occurs "workout" l \/ Occurs "exercise" l ->
      selectFallback l = fallbackResponses.workout)
  /\ (~ Occurs "workout" l -> ~ Occurs "exercise" l ->
      Occurs "diet" l \/ Occurs "nutrition" l ->
      selectFallback l = fallbackResponses.diet)
  /\ (~ Occurs "workout" l -> ~ Occurs "exercise" l ->
      ~ Occurs "diet" l -> ~ Occurs "nutrition" l ->
      Occurs "motivation" l ->
      selectFallback l = fallbackResponses.motivation)
  /\ (~ Occurs "workout" l -> ~ Occurs "exercise" l ->
      ~ Occurs "diet" l -> ~ Occurs "nutrition" l ->
      ~ Occurs "motivation" l ->
      selectFallback l = fallbackResponses.default).
Proof.
  intros Hreach Hflag Hfail l r.
  assert (Hr : r = Json 200
        (BMessage
           {| msgId := clock 0%nat;
              msgText := selectFallback l +:+ " (Offline mode)";
              sender := "bot"; timestamp := clock 1%nat |}
           (Some true))).
  { subst r.
    rewrite (postMessage_sync clock provider req chatSessions sessionId message
               chat Hreach Hflag), Hfail.
    cbn [sendMessage fst]. unfold fallbackResponse.
    now rewrite truthy_or_empty. }
  split; [exact Hr |]. rewrite Hr. cbn [replyText offlineFlag msgText].
  split; [reflexivity |]. split; [reflexivity |].
  apply selectFallback_cases.
Qed.

Lemma fallback_by_first_keyword_witness :
  let l := Js.toLowerCase "Any EXERCISE for my back?" in
  let r := fst (postMessage tickingClock unreachable
                  (plainRequest "Any EXERCISE for my back?") oneSession) in
  replyText r = Some (selectFallback l +:+ " (Offline mode)")
  /\ offlineFlag r = Some true.
Proof.
  intros l r.
  pose proof (fallback_by_first_keyword tickingClock unreachable
                (plainRequest "Any EXERCISE for my back?") oneSession
                "1700000000000" "Any EXERCISE for my back?" startChat
                (oneSession_reaches (plainRequest "Any EXERCISE for my back?")
                   "Any EXERCISE for my back?" eq_refl eq_refl eq_refl)
                eq_refl eq_refl) as H.
  cbn zeta in H. destruct H as (_ & Htext & Hflag & _).
  split; [exact Htext | exact Hflag].
Defined.

(** ** Missing fields and unknown sessions *)

(** C9. A request whose message is the empty string gets the 400
    missing-field response, exactly as a request with no message at all, and
    the store is left as it was. *)
Theorem empty_message_is_missing
    (clock : Clock) (provider : Provider) (chatSessions : Store)
    (sessionId : option string) (stream : option bool) :
  postMessage clock provider
    {| reqSessionId := sessionId; reqMessage := Some EmptyString;
       reqStream := stream |} chatSessions
  = (Json 400 (BError "Session ID and message are required"), chatSessions)
  /\ postMessage clock provider
       {| reqSessionId := sessionId; reqMessage := Some EmptyString;
          reqStream := stream |} chatSessions
     = postMessage clock provider
         {| reqSessionId := sessionId; reqMessage := None;
            reqStream := stream |} chatSessions.
Proof.
  unfold postMessage, missingFields. cbn [reqSessionId reqMessage].
  destruct sessionId as [sid|]; [| now split].
  cbn [Js.truthy negb]. rewrite orb_true_r. now split.
Qed.

Lemma gone_absent (sessionId : string) (chatSessions : Store) :
  Gone sessionId chatSessions -> chatSessions !! sessionId = None.
Proof.
  intros [events Hnever | sessions | sessions created now -> Hold].
  - now apply never_issued_absent.
  - unfold deleteRoute. destruct (sessions !! sessionId) eqn:Hs; cbn [snd].
    + apply lookup_delete_eq.
    + exact Hs.
  - rewrite lookup_sweep. unfold expired. rewrite parseInt_toString.
    now replace (oneHour <? now - created) with true
      by (symmetry; apply Z.ltb_lt; exact Hold).
Qed.

(** What the handler answers when the identifier has no conversation. *)
Lemma postMessage_absent
    (clock : Clock) (provider : Provider) (chatSessions : Store)
    (sessionId : string) (message : option string) (stream : option bool) :
  chatSessions !! sessionId = None ->
  postMessage clock provider
    {| reqSessionId := Some sessionId; reqMessage := message;
       reqStream := stream |} chatSessions
  = (if Js.truthy sessionId && Js.truthyField message
     then sessionNotFound else missingFields,
     chatSessions).
Proof.
  intros Hnone. unfold postMessage. cbn [reqSessionId reqMessage].
  destruct message as [msg|]; cbn [Js.truthyField].
  - destruct (Js.truthy sessionId), (Js.truthy msg); cbn [negb orb andb];
      try reflexivity.
    now rewrite Hnone.
  - now rewrite andb_false_r.
Qed.

(** C6, as stated, fails: the presence check comes before the lookup, so a
    call that names an identifier never handed out but carries an empty
    message is answered 400, not 404. *)
Lemma unknown_session_empty_message_is_400 :
  ("42" ∉ issued [])
  /\ fst (postMessage tickingClock unreachable
            {| reqSessionId := Some "42"; reqMessage := Some EmptyString;
               reqStream := None |} (run [] ∅))
     = Json 400 (BError "Session ID and message are required")
  /\ fst (postMessage tickingClock unreachable
            {| reqSessionId := Some "42"; reqMessage := Some EmptyString;
               reqStream := None |} (run [] ∅))
     <> Json 404 (BError "Chat session not found. Please start a new session.").
Proof.
  split; [apply not_elem_of_nil |].
  split; [reflexivity | discriminate].
Qed.

(** C6, amended. For an identifier that was never handed out, or was
    deleted, or was removed by the cleanup once older than one hour, a
    send-message call naming it is answered 404 when the identifier and the
    message are both non-empty, and 400 (missing field) otherwise; in either
    case the store is left as it was. *)
Theorem gone_session_is_not_found
    (clock : Clock) (provider : Provider) (chatSessions : Store)
    (sessionId : string) (message : option string) (stream : option bool) :
  Gone sessionId chatSessions ->
  postMessage clock provider
    {| reqSessionId := Some sessionId; reqMessage := message;
       reqStream := stream |} chatSessions
  = (if Js.truthy sessionId && Js.truthyField message
     then Json 404 (BError "Chat session not found. Please start a new session.")
     else Json 400 (BError "Session ID and message are required"),
     chatSessions).
Proof.
  intros Hgone. apply postMessage_absent, gone_absent, Hgone.
Qed.

Lemma gone_session_is_not_found_witness :
  postMessage tickingClock threeChunks
    {| reqSessionId := Some "1700000000000"; reqMessage := Some "Still there?";
       reqStream := None |}
    (sweep (1700000000000 + oneHour + 1) oneSession)
  = (Json 404 (BError "Chat session not found. Please start a new session."),
     sweep (1700000000000 + oneHour + 1) oneSession).
Proof.
  apply (gone_session_is_not_found tickingClock threeChunks
           (sweep (1700000000000 + oneHour + 1) oneSession)
           "1700000000000" (Some "Still there?") None).
  apply (Swept "1700000000000" oneSession 1700000000000
           (1700000000000 + oneHour + 1)).
  - reflexivity.
  - unfold oneHour. lia.
Defined.

(** ** The cleanup *)

(** C7. A session created at reading [created] is still served after a
    cleanup run at [created + oneHour - 1] and is gone after a cleanup run at
    [created + oneHour + 1]; and a cleanup run at [now] removes exactly the
    keys whose parsed creation time is below [now - oneHour]. *)
Theorem sweep_removes_sessions_older_than_ttl
    (chatSessions : Store) (created : Z) (chat : ChatSession) (clock : Clock) :
  chatSessions !! Js.toString created = Some chat ->
  (sweep (created + oneHour - 1) chatSessions !! Js.toString created = Some chat
   /\ getHistoryRoute clock (Js.toString created)
        (sweep (created + oneHour - 1) chatSessions)
      = getHistoryRoute clock (Js.toString created) chatSessions)
  /\ (sweep (created + oneHour + 1) chatSessions !! Js.toString created = None
      /\ getHistoryRoute clock (Js.toString created)
           (sweep (created + oneHour + 1) chatSessions)
         = Json 404 (BError "Chat session not found"))
  /\ (forall (now : Z) (sessionId : string),
        sweep now chatSessions !! sessionId
        = match Js.parseInt sessionId with
          | Some t => if t <? now - oneHour then None
                      else chatSessions !! sessionId
          | None => chatSessions !! sessionId
          end).
Proof.
  intros Hchat.
  assert (Hkeep : sweep (created + oneHour - 1) chatSessions !! Js.toString created
                  = Some chat).
  { rewrite lookup_sweep. unfold expired. rewrite parseInt_toString.
    replace (oneHour <? created + oneHour - 1 - created) with false
      by (symmetry; apply Z.ltb_ge; lia).
    exact Hchat. }
  assert (Hdrop : sweep (created + oneHour + 1) chatSessions !! Js.toString created
                  = None).
  { rewrite lookup_sweep. unfold expired. rewrite parseInt_toString.
    now replace (oneHour <? created + oneHour + 1 - created) with true
      by (symmetry; apply Z.ltb_lt; lia). }
  split; [| split].
  - split; [exact Hkeep |]. unfold getHistoryRoute. now rewrite Hkeep, Hchat.
  - split; [exact Hdrop |]. unfold getHistoryRoute. now rewrite Hdrop.
  - intros now sessionId. rewrite lookup_sweep. unfold expired.
    destruct (Js.parseInt sessionId) as [t|]; [| reflexivity].
    destruct (Z.ltb_spec oneHour (now - t)), (Z.ltb_spec t (now - oneHour));
      (reflexivity || lia).
Qed.

Lemma sweep_removes_sessions_older_than_ttl_witness :
  sweep (1700000000000 + oneHour - 1) oneSession !! Js.toString 1700000000000
  = Some startChat
  /\ sweep (1700000000000 + oneHour + 1) oneSession !! Js.toString 1700000000000
     = None.
Proof.
  pose proof (sweep_removes_sessions_older_than_ttl oneSession 1700000000000
                startChat tickingClock (lookup_insert_eq _ _ _)) as H.
  destruct H as ((Hkeep & _) & (Hdrop & _) & _).
  split; [exact Hkeep | exact Hdrop].
Defined.

(** ** Identifiers *)

(** C8, as stated, fails: two start calls that read the same millisecond
    from the clock are given the same identifier. *)
Lemma same_millisecond_same_identifier :
  exists sessionId m,
    fst (postStart tickingClock (run [EvStart tickingClock] ∅))
    = Json 200 (BStart sessionId m)
    /\ sessionId ∈ issued [EvStart tickingClock].
Proof.
  eexists _, _. split; [reflexivity |]. apply list_elem_of_here.
Qed.

Lemma issued_toString (events : list Event) (t : Z) :
  Js.toString t ∈ issued events ->
  exists clock, EvStart clock ∈ events /\ clock 0%nat = t.
Proof.
  unfold issued. induction events as [|e events IH]; cbn [flat_map].
  - intros H. now apply not_elem_of_nil in H.
  - rewrite elem_of_app. intros [H | H].
    + destruct e as [clock | | |]; cbn [issuedBy] in H;
        try (now apply not_elem_of_nil in H).
      apply list_elem_of_singleton in H. apply toString_inj in H.
      exists clock. split; [apply list_elem_of_here | now symmetry].
    + destruct (IH H) as (clock & Hin & Ht).
      exists clock. split; [now apply list_elem_of_further | exact Ht].
Qed.

(** C8, amended. A start call returns the decimal rendering of the
    millisecond it reads from the clock; the identifier differs from every
    identifier handed out before whenever no earlier start call read that
    same millisecond. *)
Theorem start_identifier_fresh_when_clock_differs
    (events : list Event) (clock : Clock) (chatSessions : Store) :
  (forall earlier, EvStart earlier ∈ events -> earlier 0%nat <> clock 0%nat) ->
  exists m,
    fst (postStart clock (run events chatSessions))
    = Json 200 (BStart (Js.toString (clock 0%nat)) m)
    /\ Js.toString (clock 0%nat) ∉ issued events.
Proof.
  intros Hfresh. eexists. split; [reflexivity |].
  intros Hin. apply issued_toString in Hin as (earlier & Hin & Heq).
  now apply (Hfresh earlier Hin).
Qed.

Lemma start_identifier_fresh_witness :
  exists m,
    fst (postStart (fun k => 1700000000500 + Z.of_nat k)
           (run [EvStart tickingClock] ∅))
    = Json 200 (BStart (Js.toString 1700000000500) m)
    /\ Js.toString 1700000000500 ∉ issued [EvStart tickingClock].
Proof.
  apply (start_identifier_fresh_when_clock_differs [EvStart tickingClock]
           (fun k => 1700000000500 + Z.of_nat k) ∅).
  intros earlier Hin. apply list_elem_of_singleton in Hin.
  injection Hin as ->. discriminate.
Defined.

(** ** The history route *)

(** C10, as stated, fails in its parenthesis: the clock is read once for
    every turn, so two turns of one response carry different timestamps when
    the clock ticks between the two readings. *)
Lemma history_timestamps_can_differ :
  exists m1 m2,
    getHistoryRoute tickingClock "1700000000000"
      (run [EvStart tickingClock;
            EvMessage tickingClock (answering "Hello!") (plainRequest "Hi")] ∅)
    = Json 200 (BHistory [m1; m2])
    /\ timestamp m1 = 1700000000000
    /\ timestamp m2 = 1700000000001
    /\ timestamp m1 <> timestamp m2.
Proof.
  eexists _, _. split; [reflexivity |]. cbn [timestamp historyItem].
  split; [reflexivity |]. split; [reflexivity |]. discriminate.
Qed.

(** C10, amended. In a history response the turn at index [i] has [i] as
    its id and, as its timestamp, the clock reading taken for it while the
    request is handled (no creation time is stored with a turn); text and
    sender come from the stored turn. All the turns of a response share one
    timestamp when the clock does not advance between those readings. *)
Theorem history_turns_indexed_and_stamped_on_read
    (clock : Clock) (sessionId : string) (chatSessions : Store)
    (chat : ChatSession) :
  chatSessions !! sessionId = Some chat ->
  exists items,
    getHistoryRoute clock sessionId chatSessions = Json 200 (BHistory items)
    /\ length items = length (getHistory chat)
    /\ (forall (i : nat) (m : Message), items !! i = Some m ->
          msgId m = Z.of_nat i
          /\ timestamp m = clock i
          /\ exists turn, getHistory chat !! i = Some turn
                          /\ shown m = turnShown turn)
    /\ ((forall i, (i < length (getHistory chat))%nat -> clock i = clock 0%nat) ->
        forall m, m ∈ items -> timestamp m = clock 0%nat).
Proof.
  intros Hchat. unfold getHistoryRoute. rewrite Hchat.
  exists (imap (historyItem clock) (getHistory chat)).
  assert (Hitem : forall (i : nat) (m : Message),
             imap (historyItem clock) (getHistory chat) !! i = Some m ->
             exists turn, getHistory chat !! i = Some turn
                          /\ m = historyItem clock i turn).
  { intros i m Hm. rewrite list_lookup_imap in Hm.
    destruct (getHistory chat !! i) as [turn|]; [| discriminate].
    exists turn. split; [reflexivity |]. cbn in Hm. congruence. }
  split; [reflexivity |]. split; [apply length_imap |]. split.
  - intros i m Hm. destruct (Hitem i m Hm) as (turn & Hturn & ->).
    split; [reflexivity |]. split; [reflexivity |]. now exists turn.
  - intros Hsame m Hin. apply list_elem_of_lookup in Hin as [i Hm].
    destruct (Hitem i m Hm) as (turn & Hturn & ->).
    cbn [timestamp historyItem]. apply Hsame.
    now apply lookup_lt_Some in Hturn.
Qed.

Lemma conversation_after_hello :
  run [EvStart tickingClock;
       EvMessage tickingClock (answering "Hello!") (plainRequest "Hi")] ∅
    !! "1700000000000"
  = Some {| chatHistory := [userTurn "Hi"; modelTurn "Hello!"] |}.
Proof. vm_compute. reflexivity. Defined.

Lemma history_turns_witness :
  exists items,
    getHistoryRoute tickingClock "1700000000000"
      (run [EvStart tickingClock;
            EvMessage tickingClock (answering "Hello!") (plainRequest "Hi")] ∅)
    = Json 200 (BHistory items)
    /\ length items = 2%nat.
Proof.
  destruct (history_turns_indexed_and_stamped_on_read tickingClock
              "1700000000000"
              (run [EvStart tickingClock;
                    EvMessage tickingClock (answering "Hello!")
                      (plainRequest "Hi")] ∅)
              {| chatHistory := [userTurn "Hi"; modelTurn "Hello!"] |}
              conversation_after_hello) as (items & Hresp & Hlen & _).
  exists items. split; [exact Hresp | exact Hlen].
Defined.

(** ** Histories *)

Lemma shown_imap (clock : Clock) (h : list Turn) :
  map shown (imap (historyItem clock) h) = map turnShown h.
Proof.
  change (shown <$> imap (historyItem clock) h = turnShown <$> h).
  rewrite fmap_imap, <- imap_const. apply imap_ext. reflexivity.
Qed.

Lemma shown_exchanges (exchanges : list (string * string)) :
  map turnShown (flat_map exchangeTurns exchanges)
  = flat_map exchangeShown exchanges.
Proof.
  induction exchanges as [|x xs IH]; [reflexivity |].
  cbn [flat_map]. rewrite List.map_app, IH. reflexivity.
Qed.

Lemma length_exchanges (exchanges : list (string * string)) :
  length (flat_map exchangeTurns exchanges) = (2 * length exchanges)%nat.
Proof.
  induction exchanges as [|x xs IH]; [reflexivity |].
  cbn [flat_map]. rewrite length_app, IH. cbn [exchangeTurns length]. lia.
Qed.

(** One successful call appends the user turn and the reply. *)
Lemma step_successful_send
    (sessionId : string) (e : Event) (exchange : string * string)
    (chatSessions : Store) (chat : ChatSession) :
  SuccessfulSend sessionId e exchange ->
  Js.truthy sessionId = true ->
  chatSessions !! sessionId = Some chat ->
  step chatSessions e !! sessionId
  = Some {| chatHistory := chatHistory chat ++ exchangeTurns exchange |}.
Proof.
  intros (clock & provider & req & -> & Hs & Hm & Ht & Hflag & Hok) Hsid Hchat.
  cbn [step].
  rewrite (postMessage_sync clock provider req chatSessions sessionId
             (fst exchange) chat); [| now repeat split | exact Hflag].
  rewrite Hok. cbn [sendMessage snd]. rewrite lookup_insert_eq.
  unfold appendTurn, exchangeTurns. cbn [chatHistory].
  now rewrite <- app_assoc.
Qed.

Lemma run_successful_sends (sessionId : string) (calls : list Event)
    (exchanges : list (string * string)) :
  Forall2 (SuccessfulSend sessionId) calls exchanges ->
  Js.truthy sessionId = true ->
  forall (chatSessions : Store) (chat : ChatSession),
    chatSessions !! sessionId = Some chat ->
    run calls chatSessions !! sessionId
    = Some {| chatHistory :=
                chatHistory chat ++ flat_map exchangeTurns exchanges |}.
Proof.
  intros Hcalls Hsid. unfold run.
  induction Hcalls as [|e x calls exchanges He _ IH]; intros chatSessions chat Hchat.
  - cbn [foldl flat_map]. rewrite app_nil_r. now destruct chat.
  - cbn [foldl flat_map].
    rewrite (IH _ _ (step_successful_send sessionId e x chatSessions chat
                       He Hsid Hchat)).
    cbn [chatHistory]. now rewrite <- app_assoc.
Qed.

(** C1. After a session is started and N non-streaming calls on it have
    each been answered by the provider, the history route returns exactly 2N
    turns: for every call, in call order, the user turn with the text sent
    followed by the assistant turn with the reply. *)
Theorem history_after_successful_sends
    (clock0 clockH : Clock) (chatSessions : Store) (calls : list Event)
    (exchanges : list (string * string)) :
  Forall2 (SuccessfulSend (Js.toString (clock0 0%nat))) calls exchanges ->
  exists items,
    getHistoryRoute clockH (Js.toString (clock0 0%nat))
      (run calls (snd (postStart clock0 chatSessions)))
    = Json 200 (BHistory items)
    /\ length items = (2 * length calls)%nat
    /\ map shown items = flat_map exchangeShown exchanges.
Proof.
  intros Hcalls.
  assert (Hstart : snd (postStart clock0 chatSessions) !! Js.toString (clock0 0%nat)
                   = Some startChat) by apply lookup_insert_eq.
  pose proof (run_successful_sends _ _ _ Hcalls (toString_truthy _) _ _ Hstart)
    as Hrun.
  cbn [startChat chatHistory app] in Hrun.
  unfold getHistoryRoute. rewrite Hrun. cbn [getHistory chatHistory].
  eexists. split; [reflexivity |]. split.
  - rewrite length_imap, length_exchanges.
    now rewrite (Forall2_length _ _ _ Hcalls).
  - now rewrite shown_imap, shown_exchanges.
Qed.

Lemma history_after_successful_sends_witness :
  exists items,
    getHistoryRoute tickingClock (Js.toString (tickingClock 0%nat))
      (run [EvMessage tickingClock (answering "Hello!") (plainRequest "Hi");
            EvMessage tickingClock (answering "Ten squats.")
              (plainRequest "A workout?")]
         (snd (postStart tickingClock ∅)))
    = Json 200 (BHistory items)
    /\ length items = 4%nat
    /\ map shown items
       = [("user", "Hi"); ("bot", "Hello!");
          ("user", "A workout?"); ("bot", "Ten squats.")].
Proof.
  apply (history_after_successful_sends tickingClock tickingClock ∅
           [EvMessage tickingClock (answering "Hello!") (plainRequest "Hi");
            EvMessage tickingClock (answering "Ten squats.")
              (plainRequest "A workout?")]
           [("Hi", "Hello!"); ("A workout?", "Ten squats.")]).
  constructor; [| constructor; [| constructor]].
  - exists tickingClock, (answering "Hello!"), (plainRequest "Hi").
    repeat split.
  - exists tickingClock, (answering "Ten squats."), (plainRequest "A workout?").
    repeat split.
Defined.

(** * Further properties of the handlers *)

Example stringify_chunk :
  sseData (ChunkFrame "Hi" "17")
  = "data: {" +:+ doubleQuote +:+ "type" +:+ doubleQuote +:+ ":"
      +:+ doubleQuote +:+ "chunk" +:+ doubleQuote +:+ ","
      +:+ doubleQuote +:+ "text" +:+ doubleQuote +:+ ":"
      +:+ doubleQuote +:+ "Hi" +:+ doubleQuote +:+ ","
      +:+ doubleQuote +:+ "sessionId" +:+ doubleQuote +:+ ":"
      +:+ doubleQuote +:+ "17" +:+ doubleQuote +:+ "}" +:+ lineFeed +:+ lineFeed.
Proof. reflexivity. Qed.

Example escape_controls :
  escape (String "010"%char (String "001"%char (String "031"%char "a\")))
  = "\n\u0001\u001fa\\"%string.
Proof. reflexivity. Qed.

(** ** CORS *)

(** X1. The origin check never refuses: whatever the [Origin] header is,
    present or not, matching one of the listed hosts or not, the callback is
    given no error and [true]. *)
Theorem cors_allows_every_origin (origin : option string) :
  corsOrigin origin = {| corsError := None; corsAllow := true |}.
Proof.
  unfold corsOrigin. destruct origin as [o|]; [| reflexivity].
  destruct (negb (Js.truthy o)); [reflexivity |].
  destruct (Js.includes o "localhost" || Js.includes o "127.0.0.1");
    [reflexivity |].
  now destruct (Js.includes o "flexai" || Js.includes o "onrender.com"
                || Js.includes o "vercel.app" || Js.includes o "netlify.app").
Qed.

(** ** Frames on the wire *)

Lemma hasLineBreak_app (a b : string) :
  hasLineBreak (a +:+ b) = hasLineBreak a || hasLineBreak b.
Proof.
  induction a as [|c a IH]; [reflexivity |].
  change (hasLineBreak (String c (a +:+ b))
          = hasLineBreak (String c a) || hasLineBreak b).
  cbn [hasLineBreak]. now rewrite IH, orb_assoc.
Qed.

Lemma escapeChar_no_break (c : ascii) : hasLineBreak (escapeChar c) = false.
Proof. destruct c as [[] [] [] [] [] [] [] []]; reflexivity. Qed.

Lemma escape_no_break (s : string) : hasLineBreak (escape s) = false.
Proof.
  induction s as [|c s IH]; [reflexivity |].
  cbn [escape]. now rewrite hasLineBreak_app, escapeChar_no_break, IH.
Qed.

Lemma jsonString_no_break (s : string) : hasLineBreak (jsonString s) = false.
Proof.
  unfold jsonString. now rewrite !hasLineBreak_app, escape_no_break.
Qed.

Lemma jsonField_no_break (name value : string) :
  hasLineBreak (jsonField name value) = false.
Proof.
  unfold jsonField. now rewrite !hasLineBreak_app, !jsonString_no_break.
Qed.

Lemma stringifyFrame_no_break (f : Frame) :
  hasLineBreak (stringifyFrame f) = false.
Proof.
  destruct f; unfold stringifyFrame;
    now rewrite !hasLineBreak_app, !jsonField_no_break.
Qed.

(** X2. Every frame is written as one line followed by one empty line: the
    text before the closing pair of line feeds holds no line feed and no
    carriage return, whatever bytes the chunk text or the identifier hold. *)
Theorem sse_frame_is_one_line (f : Frame) :
  exists line,
    sseData f = line +:+ lineFeed +:+ lineFeed
    /\ line = "data: " +:+ stringifyFrame f
    /\ hasLineBreak line = false.
Proof.
  exists ("data: " +:+ stringifyFrame f). split; [| split].
  - unfold sseData. now rewrite <- !append_assoc.
  - reflexivity.
  - now rewrite hasLineBreak_app, stringifyFrame_no_break.
Qed.

(** ** Deleting *)

(** X3. Deleting a stored session answers 200 and removes it; deleting it
    again answers 404 and changes nothing; neither call touches another
    session. *)
Theorem delete_twice
    (sessionId : string) (chatSessions : Store) (chat : ChatSession) :
  chatSessions !! sessionId = Some chat ->
  let '(first, afterFirst) := deleteRoute sessionId chatSessions in
  let '(second, afterSecond) := deleteRoute sessionId afterFirst in
  first = Json 200 (BInfo "Chat session cleared successfully")
  /\ afterFirst !! sessionId = None
  /\ second = Json 404 (BError "Chat session not found")
  /\ afterSecond = afterFirst
  /\ forall other, other <> sessionId ->
       afterSecond !! other = chatSessions !! other.
Proof.
  intros Hchat. unfold deleteRoute at 1. rewrite Hchat.
  unfold deleteRoute. rewrite lookup_delete_eq.
  split; [reflexivity |]. split; [reflexivity |].
  split; [reflexivity |]. split; [reflexivity |].
  intros other Hne. now apply lookup_delete_ne.
Qed.

Lemma delete_twice_witness :
  let '(first, afterFirst) := deleteRoute "1700000000000" oneSession in
  let '(second, afterSecond) := deleteRoute "1700000000000" afterFirst in
  first = Json 200 (BInfo "Chat session cleared successfully")
  /\ afterFirst !! "1700000000000" = None
  /\ second = Json 404 (BError "Chat session not found")
  /\ afterSecond = afterFirst
  /\ forall other, other <> "1700000000000" ->
       afterSecond !! other = oneSession !! other.
Proof.
  apply (delete_twice "1700000000000" oneSession startChat).
  apply lookup_insert_eq.
Defined.

(** X4. Starting a session and deleting it again gives back the store as it
    was, when the identifier handed out was free. *)
Theorem start_then_delete_restores
    (clock : Clock) (chatSessions : Store) :
  chatSessions !! Js.toString (clock 0%nat) = None ->
  deleteRoute (Js.toString (clock 0%nat)) (snd (postStart clock chatSessions))
  = (Json 200 (BInfo "Chat session cleared successfully"), chatSessions).
Proof.
  intros Hfree. unfold postStart. cbn [snd]. unfold deleteRoute.
  rewrite lookup_insert_eq. f_equal. rewrite delete_insert_eq.
  now apply delete_id.
Qed.

Lemma start_then_delete_restores_witness :
  deleteRoute (Js.toString (tickingClock 0%nat)) (snd (postStart tickingClock ∅))
  = (Json 200 (BInfo "Chat session cleared successfully"), ∅).
Proof.
  apply (start_then_delete_restores tickingClock ∅). apply lookup_empty.
Defined.

(** ** Starting *)

(** X5. The conversation a start call stores is empty: the history route
    shows no turn for the identifier just handed out, the welcome message
    included, even when an older conversation was stored under the same
    identifier (it is replaced). Every other session is left as it was. *)
Theorem start_stores_empty_conversation
    (clock clockH : Clock) (chatSessions : Store) :
  let '(response, after) := postStart clock chatSessions in
  let sessionId := Js.toString (clock 0%nat) in
  response = Json 200 (BStart sessionId
                         {| msgId := clock 1%nat; msgText := welcomeMessage;
                            sender := "bot"; timestamp := clock 2%nat |})
  /\ getHistoryRoute clockH sessionId after = Json 200 (BHistory [])
  /\ forall other, other <> sessionId -> after !! other = chatSessions !! other.
Proof.
  unfold postStart. split; [reflexivity |]. split.
  - unfold getHistoryRoute. now rewrite lookup_insert_eq.
  - intros other Hne. now apply lookup_insert_ne.
Qed.

(** X6. A session is usable as soon as it is started: a non-streaming call
    that names the identifier just handed out, carries a non-empty message
    and is answered by the provider gets the reply as a 200 JSON message of
    the bot, without the offline flag. *)
Theorem started_session_answers
    (clock0 clock : Clock) (provider : Provider) (req : MessageRequest)
    (chatSessions : Store) (message reply : string) :
  reqSessionId req = Some (Js.toString (clock0 0%nat)) ->
  reqMessage req = Some message ->
  Js.truthy message = true ->
  streamFlag req = false ->
  onSend provider = Replied reply ->
  fst (postMessage clock provider req (snd (postStart clock0 chatSessions)))
  = Json 200
      (BMessage {| msgId := clock 0%nat; msgText := reply; sender := "bot";
                   timestamp := clock 1%nat |} None).
Proof.
  intros Hs Hm Ht Hflag Hok.
  rewrite (postMessage_sync clock provider req _ (Js.toString (clock0 0%nat))
             message startChat).
  - now rewrite Hok.
  - unfold Reaches. split; [exact Hs |]. split; [exact Hm |].
    split; [apply toString_truthy |]. split; [exact Ht |].
    apply lookup_insert_eq.
  - exact Hflag.
Qed.

Lemma started_session_answers_witness :
  fst (postMessage tickingClock (answering "Hello!") (plainRequest "Hi")
         (snd (postStart tickingClock ∅)))
  = Json 200
      (BMessage {| msgId := 1700000000000; msgText := "Hello!"; sender := "bot";
                   timestamp := 1700000000001 |} None).
Proof.
  apply (started_session_answers tickingClock tickingClock (answering "Hello!")
           (plainRequest "Hi") ∅ "Hi" "Hello!"); reflexivity.
Defined.

(** ** The answers of the message route *)

(** X7. The message route answers 400 exactly when the identifier or the
    message is absent or empty, whatever the store, the streaming flag and
    the provider; and then the store is left as it was. *)
Theorem missing_field_iff_falsy
    (clock : Clock) (provider : Provider) (req : MessageRequest)
    (chatSessions : Store) :
  (Js.truthyField (reqSessionId req) && Js.truthyField (reqMessage req) = false
   <-> fst (postMessage clock provider req chatSessions)
       = Json 400 (BError "Session ID and message are required"))
  /\ (Js.truthyField (reqSessionId req) && Js.truthyField (reqMessage req) = false
      -> snd (postMessage clock provider req chatSessions) = chatSessions).
Proof.
  unfold postMessage, missingFields, sessionNotFound, fallbackResponse.
  destruct (reqSessionId req) as [sid|], (reqMessage req) as [msg|];
    cbn [Js.truthyField andb]; try (now split); [| now rewrite andb_false_r].
  destruct (Js.truthy sid), (Js.truthy msg); cbn [negb orb andb fst snd];
    try (now split).
  split; [split; [discriminate |] | discriminate].
  destruct (chatSessions !! sid) as [chat|]; [| discriminate].
  destruct (streamFlag req).
  - destruct (streamBranch sid msg chat (onStream provider)). discriminate.
  - destruct (sendMessage chat msg (onSend provider)) as [chat' [reply|]];
      discriminate.
Qed.

(** X8. For a message that is a string, a failure of the provider never
    becomes an error status on the non-streaming path: a call that reaches
    the provider is always answered
    by a 200 JSON message of the bot, stamped with the first two clock
    readings; it carries the reply and no flag when the provider answers, and
    the flag [isOffline: true] when the provider fails. *)
Theorem sync_call_always_200
    (clock : Clock) (provider : Provider) (req : MessageRequest)
    (chatSessions : Store) (sessionId message : string) (chat : ChatSession) :
  Reaches req chatSessions sessionId message chat ->
  streamFlag req = false ->
  exists m flag,
    fst (postMessage clock provider req chatSessions) = Json 200 (BMessage m flag)
    /\ sender m = "bot"
    /\ msgId m = clock 0%nat
    /\ timestamp m = clock 1%nat
    /\ match onSend provider with
       | Replied reply => flag = None /\ msgText m = reply
       | SendFailed => flag = Some true
       end.
Proof.
  intros Hreach Hflag.
  rewrite (postMessage_sync clock provider req chatSessions sessionId message
             chat Hreach Hflag).
  destruct (onSend provider) as [reply|]; cbn [sendMessage fst];
    eexists _, _; (split; [reflexivity |]); cbn; auto.
Qed.

Lemma sync_call_always_200_witness :
  exists m flag,
    fst (postMessage tickingClock unreachable (plainRequest "Hi") oneSession)
    = Json 200 (BMessage m flag)
    /\ sender m = "bot"
    /\ msgId m = tickingClock 0%nat
    /\ timestamp m = tickingClock 1%nat
    /\ match onSend unreachable with
       | Replied reply => flag = None /\ msgText m = reply
       | SendFailed => flag = Some true
       end.
Proof.
  apply (sync_call_always_200 tickingClock unreachable (plainRequest "Hi")
           oneSession "1700000000000" "Hi" startChat).
  - apply oneSession_reaches; reflexivity.
  - reflexivity.
Defined.

Lemma postMessage_lookup_other
    (clock : Clock) (provider : Provider) (req : MessageRequest)
    (chatSessions : Store) (other : string) :
  reqSessionId req <> Some other ->
  snd (postMessage clock provider req chatSessions) !! other
  = chatSessions !! other.
Proof.
  intros Hother. unfold postMessage.
  destruct (reqSessionId req) as [sid|], (reqMessage req) as [msg|];
    try reflexivity.
  assert (Hne : sid <> other) by congruence.
  destruct (negb (Js.truthy sid) || negb (Js.truthy msg)); [reflexivity |].
  destruct (chatSessions !! sid) as [chat|]; [| reflexivity].
  destruct (streamFlag req).
  - destruct (streamBranch sid msg chat (onStream provider)). cbn [snd].
    now apply lookup_insert_ne.
  - destruct (sendMessage chat msg (onSend provider)) as [chat' [reply|]];
      cbn [snd]; now apply lookup_insert_ne.
Qed.

(** X9. The message route never adds or removes a session, and never changes
    the conversation of a session other than the one the request names. *)
Theorem postMessage_touches_only_named_session
    (clock : Clock) (provider : Provider) (req : MessageRequest)
    (chatSessions : Store) :
  dom (snd (postMessage clock provider req chatSessions)) = dom chatSessions
  /\ forall other : string,
       reqSessionId req <> Some other ->
       snd (postMessage clock provider req chatSessions) !! other
       = chatSessions !! other.
Proof.
  split.
  - apply set_eq. intros k. rewrite !elem_of_dom. apply postMessage_is_Some.
  - intros other. apply postMessage_lookup_other.
Qed.

Lemma postMessage_touches_only_named_session_witness :
  dom (snd (postMessage tickingClock threeChunks streamRequest oneSession))
  = dom oneSession
  /\ forall other : string,
       reqSessionId streamRequest <> Some other ->
       snd (postMessage tickingClock threeChunks streamRequest oneSession)
         !! other
       = oneSession !! other.
Proof.
  exact (postMessage_touches_only_named_session tickingClock threeChunks
           streamRequest oneSession).
Defined.

(** X10. Every streaming call that reaches the provider writes the [chunk]
    frames of the fragments it received, in order, and then exactly one
    closing frame: [complete] with the concatenated text, or [error]. Every
    frame carries the identifier of the request; an empty stream gives the
    closing frame alone. *)
Theorem stream_is_chunks_then_one_closing_frame
    (clock : Clock) (provider : Provider) (req : MessageRequest)
    (chatSessions : Store) (sessionId message : string) (chat : ChatSession) :
  Reaches req chatSessions sessionId message chat ->
  streamFlag req = true ->
  exists (received : list string) (closing : Frame),
    fst (postMessage clock provider req chatSessions)
    = EventStream (map (fun c => ChunkFrame c sessionId) received ++ [closing])
    /\ match onStream provider with
       | Completed cs =>
           received = cs
           /\ closing = CompleteFrame (String.concat EmptyString cs) sessionId
       | Interrupted cs =>
           received = cs /\ closing = ErrorFrame "Streaming failed" sessionId
       | Rejected =>
           received = [] /\ closing = ErrorFrame "Streaming failed" sessionId
       end.
Proof.
  intros Hreach Hflag.
  rewrite (postMessage_stream clock provider req chatSessions sessionId message
             chat Hreach Hflag).
  cbn [fst]. destruct (onStream provider) as [cs | cs |].
  - rewrite streamBranch_completed. now eexists cs, _.
  - rewrite streamBranch_interrupted. now eexists cs, _.
  - rewrite streamBranch_rejected. now exists [], (ErrorFrame "Streaming failed" sessionId).
Qed.

Lemma stream_is_chunks_then_one_closing_frame_witness :
  exists (received : list string) (closing : Frame),
    fst (postMessage tickingClock threeChunks streamRequest oneSession)
    = EventStream (map (fun c => ChunkFrame c "1700000000000") received
                     ++ [closing])
    /\ match onStream threeChunks with
       | Completed cs =>
           received = cs
           /\ closing = CompleteFrame (String.concat EmptyString cs)
                          "1700000000000"
       | Interrupted cs =>
           received = cs
           /\ closing = ErrorFrame "Streaming failed" "1700000000000"
       | Rejected =>
           received = []
           /\ closing = ErrorFrame "Streaming failed" "1700000000000"
       end.
Proof.
  apply (stream_is_chunks_then_one_closing_frame tickingClock threeChunks
           streamRequest oneSession "1700000000000" "Plan my workout"
           startChat).
  - apply oneSession_reaches; reflexivity.
  - reflexivity.
Defined.

(** ** More on the cleanup *)

Lemma expired_later (now now' : Z) (sessionId : string) :
  now <= now' -> expired now sessionId = true -> expired now' sessionId = true.
Proof.
  unfold expired. intros Hle. destruct (Js.parseInt sessionId) as [t|];
    [| discriminate].
  intros H. apply Z.ltb_lt in H. apply Z.ltb_lt. lia.
Qed.

(** X11. Two cleanups amount to the later one, in whichever order they run;
    in particular running the cleanup twice at the same time changes nothing
    more. *)
Theorem sweep_twice_is_the_later_sweep
    (now now' : Z) (chatSessions : Store) :
  now <= now' ->
  sweep now' (sweep now chatSessions) = sweep now' chatSessions
  /\ sweep now (sweep now' chatSessions) = sweep now' chatSessions.
Proof.
  intros Hle. split; apply map_eq; intros k; rewrite !lookup_sweep.
  - destruct (expired now' k) eqn:Hk'; [reflexivity |].
    destruct (expired now k) eqn:Hk; [| reflexivity].
    apply (expired_later now now' k Hle) in Hk. congruence.
  - destruct (expired now k) eqn:Hk; [| reflexivity].
    now rewrite (expired_later now now' k Hle Hk).
Qed.

Lemma sweep_twice_witness :
  sweep 1800000000000 (sweep 1700000000001 oneSession)
  = sweep 1800000000000 oneSession
  /\ sweep 1700000000001 (sweep 1800000000000 oneSession)
     = sweep 1800000000000 oneSession.
Proof.
  apply (sweep_twice_is_the_later_sweep 1700000000001 1800000000000 oneSession).
  lia.
Defined.

Lemma issued_inv (events : list Event) (sessionId : string) :
  sessionId ∈ issued events ->
  exists clock, EvStart clock ∈ events /\ sessionId = Js.toString (clock 0%nat).
Proof.
  unfold issued. induction events as [|e events IH]; cbn [flat_map].
  - intros H. now apply not_elem_of_nil in H.
  - rewrite elem_of_app. intros [H | H].
    + destruct e as [clock | | |]; cbn [issuedBy] in H;
        try (now apply not_elem_of_nil in H).
      apply list_elem_of_singleton in H.
      exists clock. split; [apply list_elem_of_here | exact H].
    + destruct (IH H) as (clock & Hin & Ht).
      exists clock. split; [now apply list_elem_of_further | exact Ht].
Qed.

(** X12. No session is kept for ever: whatever the requests served since
    the process began, every stored identifier is the rendering of the
    reading of one of the start calls, and a cleanup run more than one hour
    after that reading removes it. *)
Theorem every_stored_session_expires
    (events : list Event) (sessionId : string) (chat : ChatSession) :
  run events ∅ !! sessionId = Some chat ->
  exists clock,
    EvStart clock ∈ events
    /\ sessionId = Js.toString (clock 0%nat)
    /\ Js.parseInt sessionId = Some (clock 0%nat)
    /\ forall now, oneHour < now - clock 0%nat ->
         sweep now (run events ∅) !! sessionId = None.
Proof.
  intros Hchat.
  destruct (run_keys events ∅ sessionId) as [H | H]; [now exists chat | |].
  - rewrite lookup_empty in H. destruct H. discriminate.
  - apply issued_inv in H as (clock & Hin & ->).
    exists clock. split; [exact Hin |]. split; [reflexivity |].
    split; [apply parseInt_toString |].
    intros now Hold. rewrite lookup_sweep. unfold expired.
    rewrite parseInt_toString.
    now replace (oneHour <? now - clock 0%nat) with true
      by (symmetry; apply Z.ltb_lt; exact Hold).
Qed.

Lemma every_stored_session_expires_witness :
  exists clock,
    EvStart clock ∈ [EvStart tickingClock;
                     EvMessage tickingClock (answering "Hello!")
                       (plainRequest "Hi")]
    /\ "1700000000000"%string = Js.toString (clock 0%nat)
    /\ Js.parseInt "1700000000000" = Some (clock 0%nat)
    /\ forall now, oneHour < now - clock 0%nat ->
         sweep now
           (run [EvStart tickingClock;
                 EvMessage tickingClock (answering "Hello!")
                   (plainRequest "Hi")] ∅)
           !! "1700000000000" = None.
Proof.
  apply (every_stored_session_expires
           [EvStart tickingClock;
            EvMessage tickingClock (answering "Hello!") (plainRequest "Hi")]
           "1700000000000"
           {| chatHistory := [userTurn "Hi"; modelTurn "Hello!"] |}).
  apply conversation_after_hello.
Defined.

(** X13. A session started at reading [T] outlives a cleanup run at [now]
    exactly when [now - T] is at most one hour: the age the cleanup computes
    from the identifier is the time since the start call, and an age of
    exactly one hour is kept. *)
Theorem started_session_survives_iff_young
    (clock : Clock) (now : Z) (chatSessions : Store) :
  let after := snd (postStart clock chatSessions) in
  let sessionId := Js.toString (clock 0%nat) in
  (sweep now after !! sessionId = Some startChat <-> now - clock 0%nat <= oneHour)
  /\ (sweep now after !! sessionId = None <-> oneHour < now - clock 0%nat).
Proof.
  cbn zeta. unfold postStart. cbn [snd]. rewrite lookup_sweep. unfold expired.
  rewrite parseInt_toString, lookup_insert_eq.
  destruct (Z.ltb_spec oneHour (now - clock 0%nat)); split; split;
    intros; (reflexivity || discriminate || lia).
Qed.

(** ** The size of the store *)

Lemma sweep_size (now : Z) (chatSessions : Store) :
  (size (sweep now chatSessions) <= size chatSessions)%nat.
Proof.
  apply map_subseteq_size, map_subseteq_spec. intros k chat.
  rewrite lookup_sweep. now destruct (expired now k).
Qed.

Lemma postMessage_size
    (clock : Clock) (provider : Provider) (req : MessageRequest)
    (chatSessions : Store) :
  size (snd (postMessage clock provider req chatSessions)) = size chatSessions.
Proof.
  rewrite <- !(size_dom (D := gset string)). f_equal.
  apply set_eq. intros k. rewrite !elem_of_dom. apply postMessage_is_Some.
Qed.

Lemma step_size (chatSessions : Store) (e : Event) :
  (size (step chatSessions e) <= size chatSessions + length (issuedBy e))%nat.
Proof.
  destruct e as [clock | clock provider req | sid | now]; cbn [step issuedBy length].
  - unfold postStart. cbn [snd]. rewrite map_size_insert.
    destruct (chatSessions !! Js.toString (clock 0%nat)); cbn; lia.
  - rewrite postMessage_size. lia.
  - unfold deleteRoute. destruct (chatSessions !! sid) eqn:Hs; cbn [snd]; [| lia].
    rewrite map_size_delete, Hs. cbn. lia.
  - pose proof (sweep_size now chatSessions). lia.
Qed.

Lemma run_size (events : list Event) : forall chatSessions : Store,
  (size (run events chatSessions) <= size chatSessions + starts events)%nat.
Proof.
  unfold run, starts, issued.
  induction events as [|e events IH]; intros chatSessions; cbn [foldl flat_map].
  - cbn. lia.
  - rewrite length_app. pose proof (IH (step chatSessions e)).
    pose proof (step_size chatSessions e). lia.
Qed.

(** X14. The store never holds more sessions than start calls were served:
    only the start route adds a key, and each call adds at most one. *)
Theorem sessions_bounded_by_starts (events : list Event) :
  (size (run events ∅) <= starts events)%nat.
Proof.
  pose proof (run_size events ∅) as H. now rewrite map_size_empty in H.
Qed.

(** ** Letter case in the offline reply *)

Lemma append_cons (c : ascii) (a b : string) :
  String c a +:+ b = String c (a +:+ b).
Proof. reflexivity. Qed.

Lemma append_nil_l (a : string) : EmptyString +:+ a = a.
Proof. reflexivity. Qed.

Lemma startsWith_app_l (s pat b : string) :
  Js.startsWith s pat = true -> Js.startsWith (s +:+ b) pat = true.
Proof.
  rewrite !startsWith_spec. intros [post ->]. exists (post +:+ b).
  apply append_assoc.
Qed.

Lemma lowerChar_ascii (c : ascii) :
  asciiByte (Js.lowerChar c) = true -> asciiByte c = true.
Proof. destruct c as [[] [] [] [] [] [] [] []]; vm_compute; auto. Qed.

(** An ASCII byte begins neither of the two characters mapped to ASCII. *)
Lemma ascii_not_lead (c : ascii) (x : string) :
  asciiByte c = true ->
  Js.startsWith (String c x) Js.kelvinSign = false
  /\ Js.startsWith (String c x) Js.capitalDottedI = false.
Proof.
  intros Hc. unfold Js.kelvinSign, Js.capitalDottedI. cbn [Js.startsWith].
  split; apply andb_false_iff; left; apply Ascii.eqb_neq; intros ->;
    discriminate Hc.
Qed.

Lemma lowerFrom_plain (c : ascii) (x : string) :
  asciiByte c = true ->
  Js.lowerFrom 0 (String c x) = String (Js.lowerChar c) (Js.lowerFrom 0 x).
Proof.
  intros Hc. destruct (ascii_not_lead c x Hc) as [Hk Hd].
  cbn [Js.lowerFrom]. now rewrite Hk, Hd.
Qed.

(** Where the lowercase form of [a] is plain ASCII, what follows [a] is
    lowercased on its own. *)
Lemma lowerFrom_app_ascii (a : string) : forall (skip : nat) (b : string),
  (skip <= String.length a)%nat ->
  isAscii (Js.lowerFrom skip a) = true ->
  Js.lowerFrom skip (a +:+ b) = Js.lowerFrom skip a +:+ Js.lowerFrom 0 b.
Proof.
  induction a as [|c a IH]; intros skip b Hlen Hasc.
  - cbn in Hlen. now replace skip with 0%nat by lia.
  - rewrite append_cons. destruct skip as [|k].
    + cbn [Js.lowerFrom] in Hasc.
      destruct (Js.startsWith (String c a) Js.kelvinSign) eqn:Hk.
      * pose proof (startsWith_app_l _ _ b Hk) as Hk'.
        rewrite append_cons in Hk'.
        cbn [Js.lowerFrom]. rewrite Hk, Hk'.
        apply startsWith_spec in Hk as [post Hpost].
        unfold Js.kelvinSign in Hpost.
        rewrite !append_cons, append_nil_l in Hpost. injection Hpost as _ ->.
        rewrite IH; [reflexivity | cbn; lia |].
        cbn [isAscii] in Hasc. now apply andb_true_iff in Hasc as [_ Hasc].
      * destruct (Js.startsWith (String c a) Js.capitalDottedI) eqn:Hd;
          [discriminate Hasc |].
        cbn [isAscii] in Hasc. apply andb_true_iff in Hasc as [Hc Hasc].
        apply lowerChar_ascii in Hc.
        rewrite !lowerFrom_plain by exact Hc.
        rewrite IH; [reflexivity | lia | exact Hasc].
    + cbn [Js.lowerFrom] in *. cbn in Hlen.
      apply IH; [lia | exact Hasc].
Qed.

(** In front of an ASCII byte, what precedes is lowercased on its own. *)
Lemma lowerFrom_prefix (pre : string) : forall (skip : nat) (c0 : ascii) (s : string),
  (skip <= String.length pre)%nat ->
  asciiByte c0 = true ->
  exists out,
    Js.lowerFrom skip (pre +:+ String c0 s) = out +:+ Js.lowerFrom 0 (String c0 s).
Proof.
  assert (Hbyte : forall (c0 b : ascii),
            asciiByte c0 = true -> asciiByte b = false -> Ascii.eqb c0 b = false).
  { intros c0 b H0 Hb. apply Ascii.eqb_neq. intros ->. congruence. }
  induction pre as [|c pre IH]; intros skip c0 s Hlen Hc0.
  - cbn in Hlen. replace skip with 0%nat by lia.
    now exists EmptyString.
  - rewrite append_cons. destruct skip as [|k].
    + cbn [Js.lowerFrom].
      destruct (Js.startsWith (String c (pre +:+ String c0 s)) Js.kelvinSign)
        eqn:Hk.
      * assert (Hpre : (2 <= String.length pre)%nat).
        { unfold Js.kelvinSign in Hk.
          destruct pre as [|c2 [|c3 pre]]; cbn; try lia;
            exfalso; rewrite ?append_cons, ?append_nil_l in Hk;
            cbn [Js.startsWith] in Hk;
            rewrite !(Hbyte c0) in Hk by (exact Hc0 || reflexivity);
            rewrite ?andb_false_r in Hk; discriminate Hk. }
        destruct (IH 2%nat c0 s Hpre Hc0) as [out Hout].
        exists (String "k"%char out). now rewrite Hout.
      * destruct (Js.startsWith (String c (pre +:+ String c0 s))
                    Js.capitalDottedI) eqn:Hd.
        -- assert (Hpre : (1 <= String.length pre)%nat).
           { unfold Js.capitalDottedI in Hd.
             destruct pre as [|c2 pre]; cbn; try lia.
             exfalso. rewrite ?append_nil_l in Hd. cbn [Js.startsWith] in Hd.
             rewrite !(Hbyte c0) in Hd by (exact Hc0 || reflexivity).
             rewrite ?andb_false_r in Hd. discriminate Hd. }
           destruct (IH 1%nat c0 s Hpre Hc0) as [out Hout].
           exists (Js.smallDottedI +:+ out). rewrite Hout.
           now rewrite append_assoc.
        -- destruct (IH 0%nat c0 s (Nat.le_0_l _) Hc0) as [out Hout].
           exists (String (Js.lowerChar c) out). now rewrite Hout.
    + cbn [Js.lowerFrom]. cbn in Hlen.
      apply IH; [lia | exact Hc0].
Qed.

(** A word whose lowercase form begins with an ASCII letter other than [k]
    and [i] begins with an ASCII byte. *)
Lemma lowercase_head (word : string) (h : ascii) (t : string) :
  Js.toLowerCase word = String h t ->
  asciiByte h = true -> h <> "k"%char -> h <> "i"%char ->
  exists c0 w, word = String c0 w /\ asciiByte c0 = true.
Proof.
  unfold Js.toLowerCase. destruct word as [|c0 w]; [discriminate |].
  intros H Hh Hk Hi. exists c0, w. split; [reflexivity |].
  cbn [Js.lowerFrom] in H.
  destruct (Js.startsWith (String c0 w) Js.kelvinSign).
  - injection H as H _. now symmetry in H.
  - destruct (Js.startsWith (String c0 w) Js.capitalDottedI).
    + unfold Js.smallDottedI in H. rewrite append_cons in H.
      injection H as H _. now symmetry in H.
    + injection H as H _. apply lowerChar_ascii. now rewrite H.
Qed.

Lemma occurs_toLowerCase (word message keyword : string) (h : ascii) (t : string) :
  Occurs word message ->
  Js.toLowerCase word = keyword ->
  keyword = String h t ->
  isAscii keyword = true -> h <> "k"%char -> h <> "i"%char ->
  Occurs keyword (Js.toLowerCase message).
Proof.
  intros (pre & post & ->) Hword Hkey Hascii Hk Hi.
  assert (Hh : asciiByte h = true).
  { rewrite Hkey in Hascii. cbn [isAscii] in Hascii.
    now apply andb_true_iff in Hascii as [Hh _]. }
  destruct (lowercase_head word h t) as (c0 & w & -> & Hc0);
    [congruence | exact Hh | exact Hk | exact Hi |].
  unfold Js.toLowerCase in *. rewrite append_cons.
  destruct (lowerFrom_prefix pre 0%nat c0 (w +:+ post) (Nat.le_0_l _) Hc0)
    as [out Hout].
  rewrite Hout, <- append_cons.
  rewrite lowerFrom_app_ascii; [| lia | now rewrite Hword].
  rewrite Hword. now exists out, (Js.lowerFrom 0 post).
Qed.

(** X15. Letter case does not matter to the keyword match: when the
    provider fails on the non-streaming path, a message that contains
    "workout" or "exercise" written in any mix of upper and lower case gets
    the workout tip, followed by [" (Offline mode)"]. *)
Theorem workout_keyword_in_any_case
    (clock : Clock) (provider : Provider) (req : MessageRequest)
    (chatSessions : Store) (sessionId message : string) (chat : ChatSession)
    (word : string) :
  Reaches req chatSessions sessionId message chat ->
  streamFlag req = false ->
  onSend provider = SendFailed ->
  Occurs word message ->
  Js.toLowerCase word = "workout"%string \/ Js.toLowerCase word = "exercise"%string ->
  replyText (fst (postMessage clock provider req chatSessions))
  = Some (fallbackResponses.workout +:+ " (Offline mode)").
Proof.
  intros Hreach Hflag Hfail Hocc Hword.
  rewrite (postMessage_sync clock provider req chatSessions sessionId message
             chat Hreach Hflag), Hfail.
  cbn [sendMessage fst]. unfold fallbackResponse. rewrite truthy_or_empty.
  cbn [replyText msgText]. do 2 f_equal.
  apply (selectFallback_cases (Js.toLowerCase message)).
  destruct Hword as [Hw | Hw]; [left | right];
    eapply (occurs_toLowerCase word message _ _ _ Hocc Hw);
    (reflexivity || discriminate).
Qed.

Lemma workout_keyword_in_any_case_witness :
  replyText (fst (postMessage tickingClock unreachable
                    (plainRequest "Best WorkOut for legs?") oneSession))
  = Some (fallbackResponses.workout +:+ " (Offline mode)").
Proof.
  apply (workout_keyword_in_any_case tickingClock unreachable
           (plainRequest "Best WorkOut for legs?") oneSession
           "1700000000000" "Best WorkOut for legs?" startChat "WorkOut").
  - apply oneSession_reaches; reflexivity.
  - reflexivity.
  - reflexivity.
  - exists "Best ", " for legs?". reflexivity.
  - left. reflexivity.
Defined.

(** ** Identifiers and isolation *)

(** X16. When the clock reading is not negative, the identifier a start
    call hands out is a non-empty string of decimal digits, and the cleanup
    reads the reading back from it. *)
Theorem start_identifier_is_decimal (clock : Clock) (chatSessions : Store) :
  0 <= clock 0%nat ->
  exists sessionId m,
    fst (postStart clock chatSessions) = Json 200 (BStart sessionId m)
    /\ Js.truthy sessionId = true
    /\ allDigits sessionId = true
    /\ Js.parseInt sessionId = Some (clock 0%nat).
Proof.
  intros Hpos. eexists _, _. split; [reflexivity |].
  split; [apply toString_truthy |]. split; [| apply parseInt_toString].
  unfold Js.toString.
  replace (clock 0%nat <? 0) with false by (symmetry; apply Z.ltb_ge; lia).
  now apply digitsOf_allDigits.
Qed.

Lemma start_identifier_is_decimal_witness :
  exists sessionId m,
    fst (postStart tickingClock ∅) = Json 200 (BStart sessionId m)
    /\ Js.truthy sessionId = true
    /\ allDigits sessionId = true
    /\ Js.parseInt sessionId = Some (tickingClock 0%nat).
Proof.
  apply (start_identifier_is_decimal tickingClock ∅). discriminate.
Defined.

Lemma step_foreign (sessionId : string) (chatSessions : Store) (e : Event) :
  Foreign sessionId e ->
  step chatSessions e !! sessionId = chatSessions !! sessionId.
Proof.
  destruct e as [clock | clock provider req | sid | now]; cbn [Foreign step];
    intros H.
  - unfold postStart. cbn [snd]. now apply lookup_insert_ne.
  - now apply postMessage_lookup_other.
  - unfold deleteRoute. destruct (chatSessions !! sid); cbn [snd];
      [now apply lookup_delete_ne | reflexivity].
  - now rewrite lookup_sweep, H.
Qed.

(** X17. A conversation is changed only by a message or a deletion that
    names it, by a start call that reads the millisecond of its identifier,
    or by a cleanup that finds it too old: any run of other events leaves it
    exactly as it was. *)
Theorem foreign_events_leave_session_alone
    (sessionId : string) (events : list Event) :
  Forall (Foreign sessionId) events ->
  forall chatSessions : Store,
    run events chatSessions !! sessionId = chatSessions !! sessionId.
Proof.
  unfold run. induction 1 as [|e events He _ IH]; intros chatSessions;
    cbn [foldl]; [reflexivity |].
  rewrite IH. now apply step_foreign.
Qed.

Lemma foreign_events_witness :
  run [EvStart (fun k => 1700000000500 + Z.of_nat k);
       EvMessage tickingClock threeChunks
         {| reqSessionId := Some "1700000000500";
            reqMessage := Some "Hi"; reqStream := Some true |};
       EvDelete "1700000000500";
       EvSweep (1700000000000 + oneHour)] oneSession !! "1700000000000"
  = oneSession !! "1700000000000".
Proof.
  apply (foreign_events_leave_session_alone "1700000000000").
  repeat constructor; discriminate.
Defined.

(** X18. The response is an event stream exactly when the streaming flag is
    set and the request reaches the provider: a streaming request with a
    missing field or an unknown identifier is answered in JSON, before any
    stream is opened. *)
Theorem event_stream_iff_streaming_call_reaches
    (clock : Clock) (provider : Provider) (req : MessageRequest)
    (chatSessions : Store) :
  (exists frames, fst (postMessage clock provider req chatSessions)
                  = EventStream frames)
  <-> streamFlag req = true
      /\ exists sessionId message chat,
           Reaches req chatSessions sessionId message chat.
Proof.
  split.
  - intros [frames H]. unfold postMessage, Reaches in *.
    destruct (reqSessionId req) as [sid|], (reqMessage req) as [msg|];
      try discriminate.
    destruct (Js.truthy sid) eqn:Hs, (Js.truthy msg) eqn:Hm;
      cbn [negb orb fst] in H; try discriminate.
    destruct (chatSessions !! sid) as [chat|] eqn:Hchat; [| discriminate].
    destruct (streamFlag req).
    + split; [reflexivity |]. now exists sid, msg, chat.
    + destruct (sendMessage chat msg (onSend provider)) as [chat' [reply|]];
        discriminate.
  - intros [Hflag (sid & msg & chat & Hreach)].
    rewrite (postMessage_stream clock provider req chatSessions sid msg chat
               Hreach Hflag).
    now eexists.
Qed.

(** ** Telling frames apart *)

Lemma unescapeHead_escapeChar (c : ascii) (rest : string) :
  unescapeHead (escapeChar c +:+ rest) = Some (c, rest).
Proof. destruct c as [[] [] [] [] [] [] [] []]; reflexivity. Qed.

(** An escaped character never begins with a double quote. *)
Lemma escapeChar_head (c : ascii) (rest : string) :
  exists h t, escapeChar c +:+ rest = String h t /\ h <> "034"%char.
Proof.
  destruct c as [[] [] [] [] [] [] [] []];
    eexists _, _; (split; [reflexivity | discriminate]).
Qed.

(** Two escaped texts, each closed by a double quote, are equal only if the
    texts and what follows the quote are. *)
Lemma escape_closed_inj (a : string) : forall (b r1 r2 : string),
  escape a +:+ doubleQuote +:+ r1 = escape b +:+ doubleQuote +:+ r2 ->
  a = b /\ r1 = r2.
Proof.
  assert (Hnil : forall r, escape EmptyString +:+ doubleQuote +:+ r
                           = String "034"%char r) by reflexivity.
  assert (Hcons : forall c s r, escape (String c s) +:+ doubleQuote +:+ r
                    = escapeChar c +:+ (escape s +:+ doubleQuote +:+ r)).
  { intros c s r. cbn [escape]. apply append_assoc. }
  induction a as [|c a IH]; intros [|d b] r1 r2 H.
  - rewrite !Hnil in H. injection H as ->. now split.
  - exfalso. rewrite Hnil, Hcons in H.
    destruct (escapeChar_head d (escape b +:+ doubleQuote +:+ r2))
      as (h & t & Heq & Hh).
    rewrite Heq in H. injection H as H _. now apply Hh.
  - exfalso. rewrite Hnil, Hcons in H.
    destruct (escapeChar_head c (escape a +:+ doubleQuote +:+ r1))
      as (h & t & Heq & Hh).
    rewrite Heq in H. injection H as H _. now apply Hh.
  - rewrite !Hcons in H. apply (f_equal unescapeHead) in H.
    rewrite !unescapeHead_escapeChar in H. injection H as -> H.
    destruct (IH b r1 r2 H) as [-> ->]. now split.
Qed.

Lemma jsonField_inj (name v1 v2 r1 r2 : string) :
  jsonField name v1 +:+ r1 = jsonField name v2 +:+ r2 -> v1 = v2 /\ r1 = r2.
Proof.
  unfold jsonField, jsonString. rewrite !append_assoc. intros H.
  apply String.app_inj in H. apply String.app_inj in H.
  apply String.app_inj in H. apply String.app_inj in H.
  apply String.app_inj in H. now apply escape_closed_inj.
Qed.

Lemma stringifyFrame_inj_tail (f g : Frame) (r1 r2 : string) :
  stringifyFrame f +:+ r1 = stringifyFrame g +:+ r2 -> f = g /\ r1 = r2.
Proof.
  assert (Hfields : forall kind1 kind2 key1 key2 v1 v2 s1 s2,
            ("{" +:+ jsonField "type" kind1 +:+ "," +:+ jsonField key1 v1
                 +:+ "," +:+ jsonField "sessionId" s1 +:+ "}") +:+ r1
            = ("{" +:+ jsonField "type" kind2 +:+ "," +:+ jsonField key2 v2
                 +:+ "," +:+ jsonField "sessionId" s2 +:+ "}") +:+ r2 ->
            kind1 = kind2 /\
            (key1 = key2 -> v1 = v2 /\ s1 = s2 /\ r1 = r2)).
  { intros kind1 kind2 key1 key2 v1 v2 s1 s2 H.
    rewrite !append_assoc in H. apply String.app_inj in H.
    apply jsonField_inj in H as [Hkind H]. split; [exact Hkind |].
    intros ->. apply String.app_inj in H.
    apply jsonField_inj in H as [-> H]. apply String.app_inj in H.
    apply jsonField_inj in H as [-> H]. apply String.app_inj in H.
    now repeat split. }
  destruct f as [t1 s1 | t1 s1 | t1 s1], g as [t2 s2 | t2 s2 | t2 s2];
    cbn [stringifyFrame]; intros H; apply Hfields in H as [Hkind H];
    try discriminate Hkind;
    destruct (H eq_refl) as (-> & -> & ->); now split.
Qed.

(** X19. The bytes written determine the frames: two event streams that
    are equal byte for byte were made of the same frames, with the same
    kinds, texts and identifiers, in the same order. *)
Theorem stream_bytes_determine_frames (frames : list Frame) :
  forall frames' : list Frame,
    streamBody frames = streamBody frames' -> frames = frames'.
Proof.
  induction frames as [|f frames IH]; intros [|g frames'] H.
  - reflexivity.
  - discriminate H.
  - discriminate H.
  - cbn [streamBody] in H. unfold sseData in H.
    rewrite !append_assoc in H. apply String.app_inj in H.
    apply stringifyFrame_inj_tail in H as [-> H].
    do 2 apply String.app_inj in H. now rewrite (IH frames' H).
Qed.

Lemma stream_bytes_determine_frames_witness :
  [ChunkFrame "Do " "17"; CompleteFrame "Do " "17"]
  = [ChunkFrame "Do " "17"; CompleteFrame "Do " "17"].
Proof.
  apply (stream_bytes_determine_frames
           [ChunkFrame "Do " "17"; CompleteFrame "Do " "17"]
           [ChunkFrame "Do " "17"; CompleteFrame "Do " "17"]).
  reflexivity.
Defined.

(** ** The catch on any message *)

(** The catch sends the canned reply exactly when the message is a string
    or absent; on a string it is the reply of [fallbackResponse]. *)
Lemma catchBlock_sends_iff_text (clock : Clock) (message : JsValue) :
  (exists r, catchBlock clock message = Returned r) <-> message <> JOther.
Proof.
  destruct message as [| m |]; cbn [catchBlock]; split;
    try discriminate; eauto.
  - intros [r H]. discriminate H.
  - intros H. now contradiction H.
Qed.

Example kelvin_message_gets_workout_tip :
  replyText (fst (postMessage tickingClock unreachable
                    (plainRequest ("WOR" +:+ Js.kelvinSign +:+ "OUT"))
                    oneSession))
  = Some (fallbackResponses.workout +:+ " (Offline mode)").
Proof. reflexivity. Qed.
